(** * FloodGuard PH demo client: the event-application state machine

    A shallow embedding of the browser client under [demo_ui/assets/js]
    ([chat.js], [app.js], [map.js], [project.js], [news.js], [api-keys.js],
    [utils.js]) and the properties of its streaming-session protocol.

    JavaScript strings are sequences of UTF-16 code units, numbers are
    IEEE-754 doubles, [sessionStorage] is a finite map from strings to
    strings, and the DOM elements the classes hold are fields of explicit
    state records that every method passes along. *)

From Stdlib Require Import Strings.String Strings.Ascii NArith ZArith Lia.
From Stdlib Require Import Floats.PrimFloat.
From stdpp Require Import gmap list.

Close Scope string_scope.
Open Scope N_scope.
Open Scope list_scope.

(** ** JavaScript values *)

(** A string: its UTF-16 code units. *)
Abbreviation jsstring := (list N) (only parsing).

(** An ASCII literal as a JavaScript string. *)
Definition js (s : string) : jsstring :=
  List.map N_of_ascii (list_ascii_of_string s).
Arguments js s%_string : simpl never.

(** [!s] for a string: only the empty string is falsy. *)
Definition str_truthy (s : jsstring) : bool :=
  match s with [] => false | _ => true end.

(** [!v] for a member that may be missing ([undefined]) or a string. *)
Definition opt_truthy (v : option jsstring) : bool :=
  match v with Some s => str_truthy s | None => false end.

(** [a || b] on optional strings. *)
Definition or_str (a b : option jsstring) : option jsstring :=
  if opt_truthy a then a else b.

(** [a || 'lit']: the default closes the chain with a string. *)
Definition or_default (a : option jsstring) (d : jsstring) : jsstring :=
  match a with
  | Some s => if str_truthy s then s else d
  | None => d
  end.

(** [`${v}`]: a missing member prints as [undefined]. *)
Definition to_display (v : option jsstring) : jsstring :=
  match v with Some s => s | None => js "undefined" end.

(** [!x] for a number: [0], [-0] and [NaN] are falsy. *)
Definition num_truthy (x : float) : bool :=
  negb (PrimFloat.is_zero x || PrimFloat.is_nan x).

Definition optnum_truthy (v : option float) : bool :=
  match v with Some x => num_truthy x | None => false end.

(** [a || b] on optional numbers. *)
Definition or_num (a b : option float) : option float :=
  if optnum_truthy a then a else b.

(** White space and line terminators, the code units [String.prototype.trim]
    strips. *)
Definition is_space (c : N) : bool :=
  ((9 <=? c) && (c <=? 13)) || (c =? 32) || (c =? 160) || (c =? 5760)
  || ((8192 <=? c) && (c <=? 8202)) || (c =? 8232) || (c =? 8233)
  || (c =? 8239) || (c =? 8287) || (c =? 12288) || (c =? 65279).

Fixpoint trimStart (s : jsstring) : jsstring :=
  match s with
  | c :: r => if is_space c then trimStart r else s
  | [] => []
  end.

Definition trim (s : jsstring) : jsstring :=
  rev (trimStart (rev (trimStart s))).

(** [s.includes(c)] for a one-unit needle. *)
Definition includes (s : jsstring) (c : N) : bool := existsb (N.eqb c) s.

(** [s.substring(a, b)] and [s.substring(a)] for [0 <= a <= b]. *)
Definition substring (s : jsstring) (a b : nat) : jsstring :=
  firstn (b - a) (skipn a s).

Definition substring_from (s : jsstring) (a : nat) : jsstring := skipn a s.

(** ** Global regular-expression replacement

    [s.replace(/re/g, out)] scans from the left: where the expression
    matches, the replacement is emitted and scanning resumes after the
    match; elsewhere the code unit is copied and scanning moves one unit on.
    A matcher looks at the rest of the input and answers with the
    replacement and the length of the match; [skip] counts the units of the
    current match still to be passed over. *)

Definition matcher := jsstring -> option (jsstring * nat).

Fixpoint replace_from (m : matcher) (skip : nat) (s : jsstring) : jsstring :=
  match s with
  | [] => []
  | c :: rest =>
      match skip with
      | S k => replace_from m k rest
      | O =>
          match m s with
          | Some (out, len) => out ++ replace_from m (Nat.pred len) rest
          | None => c :: replace_from m 0 rest
          end
      end
  end.

Definition replace_all (m : matcher) (s : jsstring) : jsstring :=
  replace_from m 0 s.

(** [/c/g] for one literal code unit. *)
Definition match_unit (c : N) (out : jsstring) : matcher :=
  fun s =>
    match s with
    | x :: _ => if x =? c then Some (out, 1%nat) else None
    | [] => None
    end.

Definition star : N := 42.
Definition amp : N := 38.
Definition lt : N := 60.
Definition gt : N := 62.
Definition newline : N := 10.

(** The longest prefix matched by [[^\*]*] and what follows it. *)
Fixpoint span_nostar (s : jsstring) : jsstring * jsstring :=
  match s with
  | [] => ([], [])
  | c :: r =>
      if c =? star then ([], s)
      else let (g, rest) := span_nostar r in (c :: g, rest)
  end.

(** [/\*\*([^\*]+?)\*\*/] anchored at the head of [s]: the group cannot
    hold a star, so it is the whole run up to the next star, which must open
    a pair of stars. *)
Definition match_bold : matcher :=
  fun s =>
    match s with
    | c1 :: c2 :: r =>
        if (c1 =? star) && (c2 =? star) then
          match span_nostar r with
          | (x :: g, d1 :: d2 :: _) =>
              if (d1 =? star) && (d2 =? star) then
                Some (js "<strong>" ++ (x :: g) ++ js "</strong>",
                      (4 + length (x :: g))%nat)
              else None
          | _ => None
          end
        else None
    | _ => None
    end.

(** [/\*([^\*]+?)\*/] anchored at the head of [s]. *)
Definition match_italic : matcher :=
  fun s =>
    match s with
    | c1 :: r =>
        if c1 =? star then
          match span_nostar r with
          | (x :: g, d1 :: _) =>
              if d1 =? star then
                Some (js "<em>" ++ (x :: g) ++ js "</em>",
                      (2 + length (x :: g))%nat)
              else None
          | _ => None
          end
        else None
    | [] => None
    end.

(** ** chat.js: [ChatManager.parseMarkdown] *)

Definition escapeHtml (text : jsstring) : jsstring :=
  replace_all (match_unit gt (js "&gt;"))
    (replace_all (match_unit lt (js "&lt;"))
       (replace_all (match_unit amp (js "&amp;")) text)).

Definition parseMarkdown (text : jsstring) : jsstring :=
  let escaped := escapeHtml text in
  let result := escaped in
  let result := replace_all match_bold result in
  let result := replace_all match_italic result in
  let result := replace_all (match_unit newline (js "<br>")) result in
  result.

(** ** The protocol's data *)

(** A project as the client reads it: every member may be missing, and each
    fact may come under either of two historical key names. *)
Record Project := {
  lat : option float;
  latitude : option float;
  lon : option float;
  longitude : option float;
  description : option jsstring;
  project_description : option jsstring;
  contractor : option jsstring;
  contract_cost : option float;
  ContractCost : option float;
  abc : option float;
  ABC : option float;
  municipality : option jsstring;
  Municipality : option jsstring;
  province : option jsstring;
  Province : option jsstring;
  region : option jsstring;
  Region : option jsstring;
  type_of_work : option jsstring;
  TypeofWork : option jsstring;
  infra_year : option float;
  InfraYear : option float;
  start_date : option jsstring;
  StartDate : option jsstring;
  completion_date_actual : option jsstring;
  CompletionDateActual : option jsstring
}.

(** The object with none of these members. *)
Definition no_project : Project :=
  {| lat := None; latitude := None; lon := None; longitude := None;
     description := None; project_description := None; contractor := None;
     contract_cost := None; ContractCost := None; abc := None; ABC := None;
     municipality := None; Municipality := None; province := None;
     Province := None; region := None; Region := None; type_of_work := None;
     TypeofWork := None; infra_year := None; InfraYear := None;
     start_date := None; StartDate := None; completion_date_actual := None;
     CompletionDateActual := None |}.

Record Article := {
  title : option jsstring;
  snippet : option jsstring;
  source : option jsstring;
  published_date : option jsstring;
  published : option jsstring;
  url : option jsstring
}.

Definition no_article : Article :=
  {| title := None; snippet := None; source := None; published_date := None;
     published := None; url := None |}.

(** The [data] member of a frame: missing, an array of projects or an array
    of articles. *)
Inductive payload :=
| NoData
| ProjectList (ps : list Project)
| ArticleList (arts : list Article).

(** A bounding box [[[minLon, minLat], [maxLon, maxLat]]]: an array of
    corners. *)
Abbreviation bbox_t := (list (float * float)) (only parsing).

(** A decoded server frame: the members the handlers read. [done] is the
    truth value of the member. *)
Record Data := {
  type : option jsstring;
  message : option jsstring;
  content : option jsstring;
  done : bool;
  data : payload;
  bbox : option bbox_t
}.

(** What arrives on the socket: text that [JSON.parse] rejects, or the
    object it yields. *)
Inductive frame :=
| Malformed (text : jsstring)
| Decoded (d : Data).

(** The object [sendMessage] serialises. *)
Record Utterance := {
  u_message : jsstring;
  u_session_id : jsstring;
  u_anthropic_key : jsstring;
  u_openai_key : jsstring
}.

(** ** Methods that may throw

    A method is a function of the state it mutates; it ends normally with a
    value or throws, and what it changed before throwing stays changed. *)

Inductive exn := SyntaxError | TypeError | InvalidStateError.

Inductive outcome (A : Type) :=
| Returned (a : A)
| Thrown (e : exn).
Arguments Returned {A} a.
Arguments Thrown {A} e.

Definition M (S A : Type) : Type := S -> outcome A * S.

Definition ret {S A} (a : A) : M S A := fun s => (Returned a, s).
Definition throw {S A} (e : exn) : M S A := fun s => (Thrown e, s).
Definition bind {S A B} (c : M S A) (k : A -> M S B) : M S B :=
  fun s =>
    match c s with
    | (Returned a, s') => k a s'
    | (Thrown e, s') => (Thrown e, s')
    end.
Definition modify {S} (f : S -> S) : M S unit := fun s => (Returned tt, f s).
Definition try_catch {S A} (c : M S A) (h : exn -> M S A) : M S A :=
  fun s =>
    match c s with
    | (Returned a, s') => (Returned a, s')
    | (Thrown e, s') => h e s'
    end.

Declare Scope js_scope.
Delimit Scope js_scope with js.
Notation "c1 ;; c2" := (bind c1 (fun _ => c2))
  (at level 100, c2 at level 200, right associativity) : js_scope.
Open Scope js_scope.

Definition threw {A S} (r : outcome A * S) : bool :=
  match r with (Thrown _, _) => true | _ => false end.

Fixpoint str_eqb (a b : jsstring) : bool :=
  match a, b with
  | [], [] => true
  | x :: a', y :: b' => (x =? y) && str_eqb a' b'
  | _, _ => false
  end.

(** ** chat.js: [ChatManager]

    The children of [#chatMessages] are the welcome block of the page, the
    message rows [addMessage] appends (a role and the [innerHTML] of the
    bubble) and the typing indicators. [ws] names the socket [this.ws]
    holds by the order of its construction; [sent] and [timers] record the
    calls of [ws.send] and [setTimeout]. Scrolling and the height of the
    text area are left out. *)

Inductive role := user | assistant.

Inductive node :=
| WelcomeMessage
| MessageDiv (r : role) (bubble : jsstring)
| TypingIndicator (status : jsstring).

Inductive task := Reconnect.

Record ChatManager := {
  sessionId : jsstring;
  ws : option nat;
  isConnected : bool;
  messagesContainer : list node;
  inputValue : jsstring;
  sendDisabled : bool;
  sockets : nat;
  sent : list (nat * Utterance);
  timers : list (task * N)
}.

Definition set_ws (v : option nat) (c : ChatManager) : ChatManager :=
  {| sessionId := sessionId c; ws := v; isConnected := isConnected c;
     messagesContainer := messagesContainer c; inputValue := inputValue c;
     sendDisabled := sendDisabled c; sockets := sockets c; sent := sent c;
     timers := timers c |}.
Definition set_isConnected (v : bool) (c : ChatManager) : ChatManager :=
  {| sessionId := sessionId c; ws := ws c; isConnected := v;
     messagesContainer := messagesContainer c; inputValue := inputValue c;
     sendDisabled := sendDisabled c; sockets := sockets c; sent := sent c;
     timers := timers c |}.
Definition set_messagesContainer (v : list node) (c : ChatManager)
  : ChatManager :=
  {| sessionId := sessionId c; ws := ws c; isConnected := isConnected c;
     messagesContainer := v; inputValue := inputValue c;
     sendDisabled := sendDisabled c; sockets := sockets c; sent := sent c;
     timers := timers c |}.
Definition set_inputValue (v : jsstring) (c : ChatManager) : ChatManager :=
  {| sessionId := sessionId c; ws := ws c; isConnected := isConnected c;
     messagesContainer := messagesContainer c; inputValue := v;
     sendDisabled := sendDisabled c; sockets := sockets c; sent := sent c;
     timers := timers c |}.
Definition set_sendDisabled (v : bool) (c : ChatManager) : ChatManager :=
  {| sessionId := sessionId c; ws := ws c; isConnected := isConnected c;
     messagesContainer := messagesContainer c; inputValue := inputValue c;
     sendDisabled := v; sockets := sockets c; sent := sent c;
     timers := timers c |}.
Definition set_sockets (v : nat) (c : ChatManager) : ChatManager :=
  {| sessionId := sessionId c; ws := ws c; isConnected := isConnected c;
     messagesContainer := messagesContainer c; inputValue := inputValue c;
     sendDisabled := sendDisabled c; sockets := v; sent := sent c;
     timers := timers c |}.
Definition set_sent (v : list (nat * Utterance)) (c : ChatManager)
  : ChatManager :=
  {| sessionId := sessionId c; ws := ws c; isConnected := isConnected c;
     messagesContainer := messagesContainer c; inputValue := inputValue c;
     sendDisabled := sendDisabled c; sockets := sockets c; sent := v;
     timers := timers c |}.
Definition set_timers (v : list (task * N)) (c : ChatManager) : ChatManager :=
  {| sessionId := sessionId c; ws := ws c; isConnected := isConnected c;
     messagesContainer := messagesContainer c; inputValue := inputValue c;
     sendDisabled := sendDisabled c; sockets := sockets c; sent := sent c;
     timers := v |}.

Definition is_welcome (n : node) : bool :=
  match n with WelcomeMessage => true | _ => false end.
Definition is_indicator (n : node) : bool :=
  match n with TypingIndicator _ => true | _ => false end.

(** [querySelector(..)] then [.remove()]: the first match goes. *)
Fixpoint remove_first (p : node -> bool) (l : list node) : list node :=
  match l with
  | [] => []
  | n :: r => if p n then r else n :: remove_first p r
  end.

(** The status text of the first typing indicator is overwritten. *)
Fixpoint set_first_status (text : jsstring) (l : list node) : list node :=
  match l with
  | [] => []
  | TypingIndicator _ :: r => TypingIndicator text :: r
  | n :: r => n :: set_first_status text r
  end.

(** [content] missing makes [text.replace] throw inside [parseMarkdown],
    after the welcome block has gone and before the row is attached. *)
Definition addMessage (r : role) (content : option jsstring)
  : M ChatManager unit :=
  modify (fun c =>
    set_messagesContainer (remove_first is_welcome (messagesContainer c)) c) ;;
  match content with
  | None => throw TypeError
  | Some text =>
      let formattedContent := parseMarkdown text in
      modify (fun c =>
        set_messagesContainer
          (messagesContainer c ++ [MessageDiv r formattedContent]) c)
  end.

Definition addTypingIndicator : M ChatManager unit :=
  modify (fun c =>
    set_messagesContainer
      (messagesContainer c ++ [TypingIndicator (js "Thinking...")]) c).

(** [textContent = undefined] empties the element. *)
Definition updateTypingIndicator (text : option jsstring)
  : M ChatManager unit :=
  modify (fun c =>
    set_messagesContainer
      (set_first_status (default [] text) (messagesContainer c)) c).

Definition removeTypingIndicator : M ChatManager unit :=
  modify (fun c =>
    set_messagesContainer (remove_first is_indicator (messagesContainer c)) c).

(** The warning sign and its variation selector. *)
Definition warning_sign : jsstring := [9888; 65039].

Definition showError (msg : option jsstring) : M ChatManager unit :=
  addMessage assistant (Some (warning_sign ++ js " " ++ to_display msg)).

Definition type_is (d : Data) (name : jsstring) : bool :=
  match type d with
  | Some t => str_eqb t name
  | None => false
  end.

Section Handlers.
(** The state of the controller behind [config.onMessage], and the
    callback itself when the configuration has one. *)
Context {A : Type}.
Variable onMessage : option (Data -> A -> A).

Definition in_chat {X} (m : M ChatManager X) : M (ChatManager * A) X :=
  fun s =>
    match m (fst s) with
    | (r, c') => (r, (c', snd s))
    end.

Definition forward (d : Data) : M (ChatManager * A) unit :=
  match onMessage with
  | Some f => modify (fun s => (fst s, f d (snd s)))
  | None => ret tt
  end.

Definition handleMessage (d : Data) : M (ChatManager * A) unit :=
  if type_is d (js "status") then
    in_chat (updateTypingIndicator (message d))
  else if type_is d (js "message") then
    in_chat (removeTypingIndicator ;;
             addMessage assistant (content d) ;;
             if done d then modify (set_sendDisabled false) else ret tt)
  else if type_is d (js "projects") || type_is d (js "map_bounds")
          || type_is d (js "news") then
    forward d
  else if type_is d (js "error") then
    in_chat (removeTypingIndicator ;;
             showError (content d) ;;
             modify (set_sendDisabled false))
  else ret tt.

(** [ws.onmessage]: [JSON.parse] throws on text that is not JSON, and
    nothing around it catches. *)
Definition ws_onmessage (f : frame) : M (ChatManager * A) unit :=
  match f with
  | Malformed _ => throw SyntaxError
  | Decoded d => handleMessage d
  end.
End Handlers.

Definition ANTHROPIC_KEY : jsstring := js "floodguard_anthropic_key".
Definition OPENAI_KEY : jsstring := js "floodguard_openai_key".

(** [this.ws.send(..)]: throws on a missing socket, or when the socket
    refuses ([send_fails], decided by the browser). *)
Definition ws_send (send_fails : bool) (u : Utterance) : M ChatManager unit :=
  fun c =>
    match ws c with
    | None => (Thrown TypeError, c)
    | Some sock =>
        if send_fails then (Thrown InvalidStateError, c)
        else (Returned tt, set_sent (sent c ++ [(sock, u)]) c)
    end.

Definition keys_warning : jsstring :=
  warning_sign
  ++ js " Please configure your API keys in Settings (gear icon) to use the chat feature.".

Definition sendMessage (sessionStorage : gmap (list N) (list N))
    (send_fails : bool) : M ChatManager unit :=
  fun c =>
    let message := trim (inputValue c) in
    if negb (str_truthy message) || negb (isConnected c) then ret tt c
    else
      let anthropicKey := sessionStorage !! ANTHROPIC_KEY in
      let openaiKey := sessionStorage !! OPENAI_KEY in
      match anthropicKey, openaiKey with
      | Some ak, Some ok =>
          if negb (str_truthy ak) || negb (str_truthy ok) then
            addMessage assistant (Some keys_warning) c
          else
            (addMessage user (Some message) ;;
             modify (set_inputValue []) ;;
             modify (set_sendDisabled true) ;;
             try_catch
               (ws_send send_fails
                  {| u_message := message; u_session_id := sessionId c;
                     u_anthropic_key := ak; u_openai_key := ok |} ;;
                addTypingIndicator)
               (fun _ =>
                  showError (Some (js "Failed to send message.")) ;;
                  modify (set_sendDisabled false))) c
      | _, _ => addMessage assistant (Some keys_warning) c
      end.

(** [new WebSocket(url)] may throw ([ctor_throws]); then [this.ws] keeps
    its value. *)
Definition connect (ctor_throws : bool) : M ChatManager unit :=
  try_catch
    (if ctor_throws then throw SyntaxError
     else modify (fun c =>
            set_ws (Some (sockets c)) (set_sockets (S (sockets c)) c)))
    (fun _ => showError (Some (js "Failed to connect to server."))).

Definition ws_onopen : M ChatManager unit :=
  modify (set_isConnected true) ;;
  modify (set_sendDisabled false).

Definition ws_onerror : M ChatManager unit :=
  showError (Some (js "Connection error. Please refresh the page.")).

Definition setTimeout (t : task) (delay : N) : M ChatManager unit :=
  modify (fun c => set_timers (timers c ++ [(t, delay)]) c).

Definition ws_onclose : M ChatManager unit :=
  modify (set_isConnected false) ;;
  modify (set_sendDisabled true) ;;
  setTimeout Reconnect 3000.

(** The constructor: [id] is what [generateId()] returned, [page] and
    [disabled] are the chat log and the send button as the page has them. *)
Definition new_ChatManager (id : jsstring) (page : list node)
    (disabled : bool) (ctor_throws : bool) : outcome unit * ChatManager :=
  connect ctor_throws
    {| sessionId := id; ws := None; isConnected := false;
       messagesContainer := page; inputValue := []; sendDisabled := disabled;
       sockets := 0; sent := []; timers := [] |}.

(** ** The event loop

    One callback runs at a time. An exception that leaves a callback is
    reported by the browser and the loop goes on with the state as the
    callback left it. *)
Inductive op :=
| UserTypes (v : jsstring)
| UserSends (sessionStorage : gmap (list N) (list N)) (send_fails : bool)
| SocketOpen
| SocketMessage (f : frame)
| SocketError
| SocketClose
| TimerFires (i : nat) (ctor_throws : bool).

Section Loop.
Context {A : Type}.
Variable onMessage : option (Data -> A -> A).

Definition dispatch (o : op) : M (ChatManager * A) unit :=
  match o with
  | UserTypes v => in_chat (modify (set_inputValue v))
  | UserSends st f => in_chat (sendMessage st f)
  | SocketOpen => in_chat ws_onopen
  | SocketMessage f => ws_onmessage onMessage f
  | SocketError => in_chat ws_onerror
  | SocketClose => in_chat ws_onclose
  | TimerFires i ct =>
      fun s =>
        match timers (fst s) !! i with
        | Some (Reconnect, _) =>
            in_chat (modify (fun c => set_timers (delete i (timers c)) c) ;;
                     connect ct) s
        | None => ret tt s
        end
  end.

Definition step (s : ChatManager * A) (o : op) : ChatManager * A :=
  snd (dispatch o s).

Definition run (ops : list op) (s : ChatManager * A) : ChatManager * A :=
  fold_left step ops s.
End Loop.

(** ** map.js: [MapController]

    [markers] is the array of the controller and [layers] the content of the
    cluster group; a marker keeps its position and the project its popup
    and click handler were built from. [view] is the last view asked of the
    map ([setView] or [fitBounds]); the animation options are left out.
    [projectCount] and [totalBudget] are the two page elements
    [updateStats] writes, holding the numbers before formatting. *)

Record Marker := {
  marker_lat : float;
  marker_lon : float;
  marker_project : Project
}.

Inductive View :=
| SetView (center : float * float) (zoom : N)
| FitBounds (southWest northEast : float * float).

Record MapController := {
  markers : list Marker;
  layers : list Marker;
  view : View;
  projectCount : option nat;
  totalBudget : option float
}.

(** [a || b || 0] on numbers. *)
Definition num_or_zero (v : option float) : float :=
  match v with
  | Some x => if num_truthy x then x else 0%float
  | None => 0%float
  end.

Definition clearMarkers (m : MapController) : MapController :=
  {| markers := []; layers := []; view := view m;
     projectCount := projectCount m; totalBudget := totalBudget m |}.

Definition addProjectMarker (project : Project) (m : MapController)
  : MapController :=
  let lat := or_num (lat project) (latitude project) in
  let lon := or_num (lon project) (longitude project) in
  match lat, lon with
  | Some la, Some lo =>
      if negb (num_truthy la) || negb (num_truthy lo) then m
      else
        let marker :=
          {| marker_lat := la; marker_lon := lo; marker_project := project |} in
        {| markers := markers m ++ [marker]; layers := layers m ++ [marker];
           view := view m; projectCount := projectCount m;
           totalBudget := totalBudget m |}
  | _, _ => m
  end.

Definition updateStats (projects : list Project) (m : MapController)
  : MapController :=
  let total :=
    fold_left
      (fun sum p =>
         (sum + num_or_zero (or_num (contract_cost p) (ContractCost p)))%float)
      projects 0%float in
  {| markers := markers m; layers := layers m; view := view m;
     projectCount := Some (length projects); totalBudget := Some total |}.

Definition updateProjects (projects : list Project) (m : MapController)
  : MapController :=
  let m := clearMarkers m in
  match projects with
  | [] => m
  | _ => updateStats projects (fold_left (fun m p => addProjectMarker p m) projects m)
  end.

(** [bbox] is [[[min_lon, min_lat], [max_lon, max_lat]]]; the map takes
    latitude first. *)
Definition fitBounds (bbox : option bbox_t) (m : MapController)
  : MapController :=
  match bbox with
  | Some [c0; c1] =>
      {| markers := markers m; layers := layers m;
         view := FitBounds (snd c0, fst c0) (snd c1, fst c1);
         projectCount := projectCount m; totalBudget := totalBudget m |}
  | _ => m
  end.

(** [new MapController(..)]: the view is set once, nothing is on the map. *)
Definition new_MapController (center : float * float) (zoom : N)
  : MapController :=
  {| markers := []; layers := []; view := SetView center zoom;
     projectCount := None; totalBudget := None |}.

(** ** project.js: [ProjectRenderer] *)

(** A value printed by a template: a number or a string. *)
Inductive shown :=
| ShownNumber (x : float)
| ShownText (s : jsstring).

(** What [createProjectCard] puts into its template. The amounts and dates
    are the arguments of [formatCurrency] and [formatDate]; [timeline] is
    present when the template shows that block. *)
Record ProjectCard := {
  card_description : jsstring;
  card_contractor : jsstring;
  card_status : jsstring;
  card_statusText : jsstring;
  card_contractCost : float;
  card_abc : float;
  card_municipality : jsstring;
  card_province : jsstring;
  card_region : jsstring;
  card_typeOfWork : jsstring;
  card_infraYear : shown;
  card_timeline : option (option jsstring * option jsstring)
}.

Inductive CardView :=
| CardOfPage
| CardEmpty
| CardShown (c : ProjectCard).

Record ProjectRenderer := {
  container : CardView;
  fade_in : bool
}.

Section Rendering.
(** [new Date(text)]: the time value in milliseconds, or nothing for an
    invalid date. How a string is read is left to the browser. *)
Variable Date_parse : jsstring -> option Z.

(** [compDate < now] on two dates; an invalid date is below nothing. *)
Definition date_before (compDate : option Z) (now : Z) : bool :=
  match compDate with
  | Some t => (t <? now)%Z
  | None => false
  end.

Definition createProjectCard (project : Project) (now : Z) : ProjectCard :=
  let description :=
    or_default (or_str (project_description project) (description project))
      (js "N/A") in
  let contractor := or_default (contractor project) (js "N/A") in
  let contractCost :=
    num_or_zero (or_num (contract_cost project) (ContractCost project)) in
  let abc := num_or_zero (or_num (abc project) (ABC project)) in
  let municipality :=
    or_default (or_str (municipality project) (Municipality project))
      (js "N/A") in
  let province :=
    or_default (or_str (province project) (Province project)) (js "N/A") in
  let region :=
    or_default (or_str (region project) (Region project)) (js "N/A") in
  let typeOfWork :=
    or_default (or_str (type_of_work project) (TypeofWork project))
      (js "N/A") in
  let infraYear :=
    match or_num (infra_year project) (InfraYear project) with
    | Some y => if num_truthy y then ShownNumber y else ShownText (js "N/A")
    | None => ShownText (js "N/A")
    end in
  let startDate := or_str (start_date project) (StartDate project) in
  let completionDate :=
    or_str (completion_date_actual project) (CompletionDateActual project) in
  let '(status, statusText) :=
    match completionDate with
    | Some d =>
        if str_truthy d then
          let compDate := Date_parse d in
          if date_before compDate now then (js "completed", js "Completed")
          else (js "ongoing", js "Ongoing")
        else (js "ongoing", js "Ongoing")
    | None => (js "ongoing", js "Ongoing")
    end in
  {| card_description := description; card_contractor := contractor;
     card_status := status; card_statusText := statusText;
     card_contractCost := contractCost; card_abc := abc;
     card_municipality := municipality; card_province := province;
     card_region := region; card_typeOfWork := typeOfWork;
     card_infraYear := infraYear;
     card_timeline :=
       if opt_truthy startDate || opt_truthy completionDate
       then Some (startDate, completionDate) else None |}.

Definition showEmptyCard (r : ProjectRenderer) : ProjectRenderer :=
  {| container := CardEmpty; fade_in := fade_in r |}.

Definition render (project : option Project) (now : Z) (r : ProjectRenderer)
  : ProjectRenderer :=
  match project with
  | None => showEmptyCard r
  | Some p =>
      {| container := CardShown (createProjectCard p now); fade_in := true |}
  end.
End Rendering.

(** ** news.js: [NewsManager]

    [items] is the content of [#newsItems]; [requests] records the queries
    handed to [fetch], whose answers come back later as events of their
    own. *)

Record NewsCard := {
  news_title : jsstring;
  news_snippet : jsstring;
  news_source : jsstring;
  news_publishedDate : jsstring;
  news_url : jsstring
}.

Inductive NewsView :=
| NewsOfPage
| NewsEmpty
| NewsError
| NewsLoading
| NewsCards (cards : list NewsCard).

(** The parameters appended to [/api/news?]. *)
Record NewsQuery := {
  q_query : option jsstring;
  q_contractor : option jsstring;
  q_location : option jsstring
}.

Record NewsManager := {
  items : NewsView;
  requests : list NewsQuery
}.

Definition createNewsCard (article : Article) : NewsCard :=
  {| news_title := or_default (title article) (js "Untitled Article");
     news_snippet := or_default (snippet article) (js "No description available");
     news_source := or_default (source article) (js "Unknown");
     news_publishedDate :=
       or_default (or_str (published_date article) (published article)) [];
     news_url := or_default (url article) (js "#") |}.

Definition showEmptyNews (n : NewsManager) : NewsManager :=
  {| items := NewsEmpty; requests := requests n |}.
Definition showErrorNews (n : NewsManager) : NewsManager :=
  {| items := NewsError; requests := requests n |}.
Definition showLoadingNews (n : NewsManager) : NewsManager :=
  {| items := NewsLoading; requests := requests n |}.

Definition renderNews (articles : list Article) (n : NewsManager)
  : NewsManager :=
  match articles with
  | [] => showEmptyNews n
  | _ => {| items := NewsCards (List.map createNewsCard articles);
            requests := requests n |}
  end.

Definition when_truthy (s : jsstring) : option jsstring :=
  if str_truthy s then Some s else None.

(** [fetchForProject] up to its [await]: the panel shows the skeleton and
    the request leaves. *)
Definition fetchForProject (project : Project) (n : NewsManager)
  : NewsManager :=
  let n := showLoadingNews n in
  let description :=
    or_default (or_str (description project) (project_description project)) [] in
  let contractor := or_default (contractor project) [] in
  let municipality :=
    or_default (or_str (municipality project) (Municipality project)) [] in
  let province :=
    or_default (or_str (province project) (Province project)) [] in
  let location := trim (municipality ++ js " " ++ province) in
  {| items := items n;
     requests :=
       requests n ++
       [{| q_query := when_truthy description;
           q_contractor :=
             if str_truthy contractor && negb (str_eqb contractor (js "N/A"))
             then Some contractor else None;
           q_location := when_truthy location |}] |}.

(** The rest of [fetchForProject], once the answer is in: the articles of
    the response, or nothing when the request or its decoding failed. *)
Definition newsResponse (articles : option (list Article)) (n : NewsManager)
  : NewsManager :=
  match articles with
  | Some (a :: rest) => renderNews (a :: rest) n
  | Some [] => showEmptyNews n
  | None => showErrorNews n
  end.

(** ** app.js: [FloodGuardApp] *)

Record FloodGuardApp := {
  currentProjects : list Project;
  map : MapController;
  projectRenderer : ProjectRenderer;
  news : NewsManager;
  detailsPanelActive : bool;
  closeButton : bool
}.

(** [Math.min(...xs)] and [Math.max(...xs)]: any [NaN] wins, and [-0] is
    below [+0]. *)
Definition min2 (a b : float) : float :=
  if PrimFloat.is_nan a then a
  else if PrimFloat.is_nan b then b
  else if (b <? a)%float then b
  else if (a <? b)%float then a
  else match PrimFloat.classify b with FloatClass.NZero => b | _ => a end.

Definition max2 (a b : float) : float :=
  if PrimFloat.is_nan a then a
  else if PrimFloat.is_nan b then b
  else if (a <? b)%float then b
  else if (b <? a)%float then a
  else match PrimFloat.classify b with FloatClass.PZero => b | _ => a end.

Definition Math_min (xs : list float) : float :=
  fold_left min2 xs PrimFloat.infinity.
Definition Math_max (xs : list float) : float :=
  fold_left max2 xs PrimFloat.neg_infinity.

(** [xs.filter(Boolean)], keeping the numbers. *)
Fixpoint filter_Boolean (xs : list (option float)) : list float :=
  match xs with
  | [] => []
  | Some x :: r =>
      if num_truthy x then x :: filter_Boolean r else filter_Boolean r
  | None :: r => filter_Boolean r
  end.

(** The default region and the padding [0.1]. *)
Definition default_bounds : bbox_t := [(121, 12); (122, 13)]%float.
Definition padding : float := 0x1.999999999999ap-4%float.

Definition project_lats (projects : list Project) : list float :=
  filter_Boolean (List.map (fun p => or_num (lat p) (latitude p)) projects).
Definition project_lons (projects : list Project) : list float :=
  filter_Boolean (List.map (fun p => or_num (lon p) (longitude p)) projects).

Definition calculateBounds (projects : list Project) : bbox_t :=
  match projects with
  | [] => default_bounds
  | _ =>
      let lats := project_lats projects in
      let lons := project_lons projects in
      match lats, lons with
      | [], _ | _, [] => default_bounds
      | _, _ =>
          [ ((Math_min lons - padding)%float, (Math_min lats - padding)%float);
            ((Math_max lons + padding)%float, (Math_max lats + padding)%float) ]
      end
  end.

Definition set_map (v : MapController) (a : FloodGuardApp) : FloodGuardApp :=
  {| currentProjects := currentProjects a; map := v;
     projectRenderer := projectRenderer a; news := news a;
     detailsPanelActive := detailsPanelActive a;
     closeButton := closeButton a |}.
Definition set_projectRenderer (v : ProjectRenderer) (a : FloodGuardApp)
  : FloodGuardApp :=
  {| currentProjects := currentProjects a; map := map a;
     projectRenderer := v; news := news a;
     detailsPanelActive := detailsPanelActive a;
     closeButton := closeButton a |}.
Definition set_news (v : NewsManager) (a : FloodGuardApp) : FloodGuardApp :=
  {| currentProjects := currentProjects a; map := map a;
     projectRenderer := projectRenderer a; news := v;
     detailsPanelActive := detailsPanelActive a;
     closeButton := closeButton a |}.
Definition set_currentProjects (v : list Project) (a : FloodGuardApp)
  : FloodGuardApp :=
  {| currentProjects := v; map := map a;
     projectRenderer := projectRenderer a; news := news a;
     detailsPanelActive := detailsPanelActive a;
     closeButton := closeButton a |}.

(** [message.data || []] read as projects, [message.data] read as
    articles: an object of the other kind has none of the members read. *)
Definition data_projects (d : payload) : list Project :=
  match d with
  | NoData => []
  | ProjectList ps => ps
  | ArticleList arts => List.map (fun _ => no_project) arts
  end.

Definition data_articles (d : payload) : option (list Article) :=
  match d with
  | NoData => None
  | ArticleList arts => Some arts
  | ProjectList ps => Some (List.map (fun _ => no_article) ps)
  end.

Section Controller.
Variable Date_parse : jsstring -> option Z.

Definition handleChatMessage (now : Z) (message : Data) (a : FloodGuardApp)
  : FloodGuardApp :=
  if type_is message (js "projects") then
    let a := set_currentProjects (data_projects (data message)) a in
    let a := set_map (clearMarkers (map a)) a in
    let a := set_map (updateProjects (currentProjects a) (map a)) a in
    match currentProjects a with
    | first :: _ =>
        let bounds := calculateBounds (currentProjects a) in
        let a := set_map (fitBounds (Some bounds) (map a)) a in
        set_projectRenderer
          (render Date_parse (Some first) now (projectRenderer a)) a
    | [] => a
    end
  else if type_is message (js "map_bounds") then
    match bbox message with
    | Some b => set_map (fitBounds (Some b) (map a)) a
    | None => a
    end
  else if type_is message (js "news") then
    match data_articles (data message) with
    | Some articles => set_news (renderNews articles (news a)) a
    | None => a
    end
  else a.

(** A click on a marker; [innerWidth] is the width of the window. *)
Definition handleProjectClick (now : Z) (innerWidth : N) (project : Project)
    (a : FloodGuardApp) : FloodGuardApp :=
  let a :=
    set_projectRenderer
      (render Date_parse (Some project) now (projectRenderer a)) a in
  let a := set_news (showLoadingNews (news a)) a in
  let a := set_news (fetchForProject project (news a)) a in
  if innerWidth <=? 1024 then
    {| currentProjects := currentProjects a; map := map a;
       projectRenderer := projectRenderer a; news := news a;
       detailsPanelActive := true; closeButton := true |}
  else a.
End Controller.

(** [new FloodGuardApp()], before the first answer of [/api/search]. *)
Definition new_FloodGuardApp : FloodGuardApp :=
  {| currentProjects := [];
     map := new_MapController
              (0x1.9c26809d49518p+3, 0x1.e7189374bc6a8p+6)%float 6;
     projectRenderer := {| container := CardOfPage; fade_in := false |};
     news := {| items := NewsOfPage; requests := [] |};
     detailsPanelActive := false; closeButton := false |}.

(** ** The page: chat and controller on one event loop *)

Inductive event :=
| Chat (o : op) (now : Z)
| MarkerClick (p : Project) (innerWidth : N) (now : Z)
| NewsAnswer (articles : option (list Article)).

Section Client.
Variable Date_parse : jsstring -> option Z.

Definition client_step (s : ChatManager * FloodGuardApp) (e : event)
  : ChatManager * FloodGuardApp :=
  match e with
  | Chat o now => step (Some (handleChatMessage Date_parse now)) s o
  | MarkerClick p w now =>
      (fst s, handleProjectClick Date_parse now w p (snd s))
  | NewsAnswer arts =>
      (fst s, set_news (newsResponse arts (news (snd s))) (snd s))
  end.

Definition client_run (es : list event) (s : ChatManager * FloodGuardApp)
  : ChatManager * FloodGuardApp :=
  fold_left client_step es s.
End Client.

(** ** api-keys.js: [APIKeyManager]

    [sessionStorage] is the store of the tab; the two inputs, the modal and
    the status line are the elements of the settings form; [scheduled]
    records the calls of [setTimeout]. *)

Inductive key_task := CloseAndReload | ReloadPage | OpenWithWarning.

Record APIKeyManager := {
  sessionStorage : gmap (list N) (list N);
  anthropicInput : jsstring;
  openaiInput : jsstring;
  modalActive : bool;
  apiStatus : jsstring * jsstring;
  scheduled : list (key_task * N)
}.

Definition set_sessionStorage (v : gmap (list N) (list N))
    (k : APIKeyManager) : APIKeyManager :=
  {| sessionStorage := v; anthropicInput := anthropicInput k;
     openaiInput := openaiInput k; modalActive := modalActive k;
     apiStatus := apiStatus k; scheduled := scheduled k |}.
Definition set_anthropicInput (v : jsstring) (k : APIKeyManager)
  : APIKeyManager :=
  {| sessionStorage := sessionStorage k; anthropicInput := v;
     openaiInput := openaiInput k; modalActive := modalActive k;
     apiStatus := apiStatus k; scheduled := scheduled k |}.
Definition set_openaiInput (v : jsstring) (k : APIKeyManager)
  : APIKeyManager :=
  {| sessionStorage := sessionStorage k; anthropicInput := anthropicInput k;
     openaiInput := v; modalActive := modalActive k;
     apiStatus := apiStatus k; scheduled := scheduled k |}.
Definition set_modalActive (v : bool) (k : APIKeyManager) : APIKeyManager :=
  {| sessionStorage := sessionStorage k; anthropicInput := anthropicInput k;
     openaiInput := openaiInput k; modalActive := v;
     apiStatus := apiStatus k; scheduled := scheduled k |}.
Definition set_scheduled (v : list (key_task * N)) (k : APIKeyManager)
  : APIKeyManager :=
  {| sessionStorage := sessionStorage k; anthropicInput := anthropicInput k;
     openaiInput := openaiInput k; modalActive := modalActive k;
     apiStatus := apiStatus k; scheduled := v |}.

(** The mask character, U+2022. *)
Definition bullet : N := 8226.

Definition maskKey (key : jsstring) : jsstring :=
  if negb (str_truthy key) || (length key <? 8)%nat then key
  else substring key 0 7 ++ repeat bullet 20
       ++ substring_from key (length key - 4).

Definition showStatus (msg type : jsstring) (k : APIKeyManager)
  : APIKeyManager :=
  {| sessionStorage := sessionStorage k; anthropicInput := anthropicInput k;
     openaiInput := openaiInput k; modalActive := modalActive k;
     apiStatus := (msg, js "api-status " ++ type); scheduled := scheduled k |}.

Definition clearStatus (k : APIKeyManager) : APIKeyManager :=
  {| sessionStorage := sessionStorage k; anthropicInput := anthropicInput k;
     openaiInput := openaiInput k; modalActive := modalActive k;
     apiStatus := ([], js "api-status"); scheduled := scheduled k |}.

Definition getAnthropicKey (k : APIKeyManager) : option jsstring :=
  sessionStorage k !! ANTHROPIC_KEY.
Definition getOpenAIKey (k : APIKeyManager) : option jsstring :=
  sessionStorage k !! OPENAI_KEY.

Definition openModal (k : APIKeyManager) : APIKeyManager :=
  let anthropicKey := getAnthropicKey k in
  let openaiKey := getOpenAIKey k in
  let k :=
    match anthropicKey with
    | Some key => if str_truthy key then set_anthropicInput (maskKey key) k else k
    | None => k
    end in
  let k :=
    match openaiKey with
    | Some key => if str_truthy key then set_openaiInput (maskKey key) k else k
    | None => k
    end in
  set_modalActive true k.

Definition closeModal (k : APIKeyManager) : APIKeyManager :=
  clearStatus (set_modalActive false k).

Definition keyTimeout (t : key_task) (delay : N) (k : APIKeyManager)
  : APIKeyManager :=
  set_scheduled (scheduled k ++ [(t, delay)]) k.

Definition saveKeys (k : APIKeyManager) : APIKeyManager :=
  let anthropicKey := trim (anthropicInput k) in
  let openaiKey := trim (openaiInput k) in
  if negb (str_truthy anthropicKey) && negb (str_truthy openaiKey) then
    showStatus (js "Please enter at least one API key") (js "error") k
  else
    let k :=
      if str_truthy anthropicKey && negb (includes anthropicKey bullet)
      then set_sessionStorage (<[ANTHROPIC_KEY := anthropicKey]> (sessionStorage k)) k
      else k in
    let k :=
      if str_truthy openaiKey && negb (includes openaiKey bullet)
      then set_sessionStorage (<[OPENAI_KEY := openaiKey]> (sessionStorage k)) k
      else k in
    let k :=
      showStatus (10003 :: js " API keys saved successfully! (Session only)")
        (js "success") k in
    keyTimeout CloseAndReload 1500 k.

(** [confirmed] is the answer to the [confirm] dialog. *)
Definition clearKeys (confirmed : bool) (k : APIKeyManager) : APIKeyManager :=
  if confirmed then
    let k := set_sessionStorage (delete ANTHROPIC_KEY (sessionStorage k)) k in
    let k := set_sessionStorage (delete OPENAI_KEY (sessionStorage k)) k in
    let k := set_openaiInput [] (set_anthropicInput [] k) in
    let k := showStatus (js "API keys cleared") (js "warning") k in
    keyTimeout ReloadPage 1000 k
  else k.

Definition checkKeys (k : APIKeyManager) : APIKeyManager :=
  if negb (opt_truthy (getAnthropicKey k)) || negb (opt_truthy (getOpenAIKey k))
  then keyTimeout OpenWithWarning 1000 k
  else k.

(** The constructor, on a freshly loaded page: the store of the tab is all
    that survives a reload. *)
Definition new_APIKeyManager (store : gmap (list N) (list N))
  : APIKeyManager :=
  checkKeys
    {| sessionStorage := store; anthropicInput := []; openaiInput := [];
       modalActive := false; apiStatus := ([], js "api-status");
       scheduled := [] |}.

Definition reload (k : APIKeyManager) : APIKeyManager :=
  new_APIKeyManager (sessionStorage k).

(** What can happen to the settings form. *)
Inductive key_op :=
| OpenSettings
| CloseSettings
| TypeAnthropic (v : jsstring)
| TypeOpenAI (v : jsstring)
| SaveKeys
| ClearKeys (confirmed : bool)
| KeyTimer (i : nat).

Definition key_step (k : APIKeyManager) (o : key_op) : APIKeyManager :=
  match o with
  | OpenSettings => openModal k
  | CloseSettings => closeModal k
  | TypeAnthropic v => set_anthropicInput v k
  | TypeOpenAI v => set_openaiInput v k
  | SaveKeys => saveKeys k
  | ClearKeys c => clearKeys c k
  | KeyTimer i =>
      match scheduled k !! i with
      | Some (CloseAndReload, _) =>
          reload (closeModal (set_scheduled (delete i (scheduled k)) k))
      | Some (ReloadPage, _) =>
          reload (set_scheduled (delete i (scheduled k)) k)
      | Some (OpenWithWarning, _) =>
          showStatus (js "Please enter your API keys to use FloodGuard PH")
            (js "warning")
            (openModal (set_scheduled (delete i (scheduled k)) k))
      | None => k
      end
  end.

Definition key_run (ops : list key_op) (k : APIKeyManager) : APIKeyManager :=
  fold_left key_step ops k.

(** ** Vocabulary of the properties *)

(** The tags the formatter writes. *)
Definition formatter_tags : list (list N) :=
  [js "<strong>"; js "</strong>"; js "<em>"; js "</em>"; js "<br>"].

(** A string in which every angle bracket belongs to a tag of the
    formatter. *)
Inductive markup_safe : list N -> Prop :=
| safe_nil : markup_safe []
| safe_unit c r : c <> lt -> c <> gt -> markup_safe r -> markup_safe (c :: r)
| safe_tag t r : In t formatter_tags -> markup_safe r -> markup_safe (t ++ r).

(** The number of places at which [t] occurs in [s]. *)
Fixpoint is_prefix (t s : list N) : bool :=
  match t, s with
  | [], _ => true
  | x :: t', y :: s' => (x =? y) && is_prefix t' s'
  | _ :: _, [] => false
  end.

Fixpoint occurrences (t s : list N) : nat :=
  match s with
  | [] => 0
  | _ :: r => ((if is_prefix t s then 1 else 0) + occurrences t r)%nat
  end.

(** A [message] frame with its fragment of text. *)
Definition fragment (text : list N) (fin : bool) : Data :=
  {| type := Some (js "message"); message := None; content := Some text;
     done := fin; data := NoData; bbox := None |}.

(** What one [message] frame removes from the chat log before it adds its
    row: the first typing indicator and the welcome block. *)
Definition cleared (l : list node) : list node :=
  remove_first is_welcome (remove_first is_indicator l).

(** An open chat in the middle of a turn: the question is in the log, the
    indicator is shown and the send button is disabled. *)
Definition awaiting_chat : ChatManager :=
  {| sessionId := js "s1"; ws := Some 0%nat; isConnected := true;
     messagesContainer :=
       [MessageDiv user (js "Show me 2025 projects in Pangasinan");
        TypingIndicator (js "Thinking...")];
     inputValue := []; sendDisabled := true; sockets := 1;
     sent := []; timers := [] |}.

(** An open chat at rest. *)
Definition idle_chat : ChatManager :=
  {| sessionId := js "s1"; ws := Some 0%nat; isConnected := true;
     messagesContainer := [WelcomeMessage];
     inputValue := []; sendDisabled := false; sockets := 1;
     sent := []; timers := [] |}.

(** A project with a coordinate pair and nothing else. *)
Definition project_at (la lo : float) : Project :=
  {| lat := Some la; latitude := None; lon := Some lo; longitude := None;
     description := None; project_description := None; contractor := None;
     contract_cost := None; ContractCost := None; abc := None; ABC := None;
     municipality := None; Municipality := None; province := None;
     Province := None; region := None; Region := None; type_of_work := None;
     TypeofWork := None; infra_year := None; InfraYear := None;
     start_date := None; StartDate := None; completion_date_actual := None;
     CompletionDateActual := None |}.

Definition projects_frame (ps : list Project) : Data :=
  {| type := Some (js "projects"); message := None; content := None;
     done := false; data := ProjectList ps; bbox := None |}.

Definition map_bounds_frame (b : list (float * float)) : Data :=
  {| type := Some (js "map_bounds"); message := None; content := None;
     done := false; data := NoData; bbox := Some b |}.

(** A browser that reads no date at all. *)
Definition no_dates : list N -> option Z := fun _ => None.

(** The types [handleMessage] has a case for. *)
Definition recognized (d : Data) : bool :=
  type_is d (js "status") || type_is d (js "message")
  || type_is d (js "projects") || type_is d (js "map_bounds")
  || type_is d (js "news") || type_is d (js "error").

(** The session is the same in [c'] as in [c]: same identifier, same
    socket, same connection flag, same calls of the socket constructor,
    of [send] and of [setTimeout]. *)
Definition same_session (c c' : ChatManager) : Prop :=
  sessionId c' = sessionId c /\ ws c' = ws c
  /\ isConnected c' = isConnected c /\ sockets c' = sockets c
  /\ sent c' = sent c /\ timers c' = timers c.

(** A frame of a type the client has no case for. *)
Definition tool_frame : Data :=
  {| type := Some (js "tool"); message := None; content := None;
     done := false; data := NoData; bbox := None |}.

(** The marker a project gets, when both coordinates the code reads are
    truthy. *)
Definition project_marker (p : Project) : option Marker :=
  match or_num (lat p) (latitude p), or_num (lon p) (longitude p) with
  | Some la, Some lo =>
      if num_truthy la && num_truthy lo
      then Some {| marker_lat := la; marker_lon := lo; marker_project := p |}
      else None
  | _, _ => None
  end.

Definition markers_of (ps : list Project) : list Marker :=
  flat_map
    (fun p => match project_marker p with Some mk => [mk] | None => [] end) ps.

(** Both keys are in the store and neither is empty. *)
Definition keys_configured (store : gmap (list N) (list N)) : bool :=
  opt_truthy (store !! ANTHROPIC_KEY) && opt_truthy (store !! OPENAI_KEY).

(** Every frame handed to [send] so far carries the identifier [id]. *)
Definition all_sent_with (id : list N) (c : ChatManager) : Prop :=
  Forall (fun su => u_session_id (snd su) = id) (sent c).

(** A store with both keys. *)
Definition both_keys : gmap (list N) (list N) :=
  <[ANTHROPIC_KEY := js "sk-ant-0123456789"]>
    (<[OPENAI_KEY := js "sk-0123456789"]> ∅).

(** The completion date the card is built from. *)
Definition completion_date (p : Project) : option (list N) :=
  or_str (completion_date_actual p) (CompletionDateActual p).

(** The same project with the completion date removed. *)
Definition without_completion_date (p : Project) : Project :=
  {| lat := lat p; latitude := latitude p; lon := lon p;
     longitude := longitude p; description := description p;
     project_description := project_description p;
     contractor := contractor p; contract_cost := contract_cost p;
     ContractCost := ContractCost p; abc := abc p; ABC := ABC p;
     municipality := municipality p; Municipality := Municipality p;
     province := province p; Province := Province p; region := region p;
     Region := Region p; type_of_work := type_of_work p;
     TypeofWork := TypeofWork p; infra_year := infra_year p;
     InfraYear := InfraYear p; start_date := start_date p;
     StartDate := StartDate p; completion_date_actual := None;
     CompletionDateActual := None |}.

(** A project completed on 2024-03-15. *)
Definition finished_project : Project :=
  {| lat := Some 14.5%float; latitude := None; lon := Some 121%float;
     longitude := None; description := Some (js "Flood wall");
     project_description := None; contractor := None;
     contract_cost := None; ContractCost := None; abc := None; ABC := None;
     municipality := None; Municipality := None; province := None;
     Province := None; region := None; Region := None; type_of_work := None;
     TypeofWork := None; infra_year := None; InfraYear := None;
     start_date := None; StartDate := None;
     completion_date_actual := Some (js "2024-03-15");
     CompletionDateActual := None |}.

(** A browser that reads this one date: midnight UTC of 15 March 2024. *)
Definition one_date : list N -> option Z :=
  fun text =>
    if str_eqb text (js "2024-03-15") then Some 1710460800000%Z else None.

(** The coordinates as the code reads them: [project.lat ||
    project.latitude] and [project.lon || project.longitude]. *)
Definition read_lat (p : Project) : option float :=
  or_num (lat p) (latitude p).
Definition read_lon (p : Project) : option float :=
  or_num (lon p) (longitude p).

(** The box as a function of the coordinates that pass the filter. *)
Definition bounds_of (lats lons : list float) : list (float * float) :=
  match lats, lons with
  | [], _ | _, [] => default_bounds
  | _, _ =>
      [ ((Math_min lons - padding)%float, (Math_min lats - padding)%float);
        ((Math_max lons + padding)%float, (Math_max lats + padding)%float) ]
  end.

(** A value as [saveKeys] stores it: not empty, trimmed, without the mask
    character. *)
Definition clean_key (v : list N) : Prop :=
  v <> [] /\ trim v = v /\ includes v bullet = false.

Definition store_clean (store : gmap (list N) (list N)) : Prop :=
  map_Forall (fun _ v => clean_key v) store.

(** The string starts with something that [trimStart] keeps. *)
Definition starts_clean (s : list N) : Prop :=
  match s with
  | c :: _ => is_space c = false
  | [] => True
  end.

(** The settings form of a tab whose store holds [store]. *)
Definition settings_form (store : gmap (list N) (list N)) : APIKeyManager :=
  {| sessionStorage := store; anthropicInput := []; openaiInput := [];
     modalActive := false; apiStatus := ([], js "api-status");
     scheduled := [] |}.

(** ** chat.js: the listeners of [initializeEventListeners] *)

(** [keydown] on the input: Enter without Shift sends. *)
Definition keydown (key : list N) (shiftKey : bool)
    (store : gmap (list N) (list N)) (send_fails : bool)
  : M ChatManager unit :=
  if str_eqb key (js "Enter") && negb shiftKey
  then sendMessage store send_fails
  else ret tt.

(** A global replacement whose expression is anchored: the matcher is told
    whether it stands at the beginning of the input. *)
Fixpoint replace_anchored (m : bool -> matcher) (at_start : bool)
    (skip : nat) (s : list N) : list N :=
  match s with
  | [] => []
  | c :: rest =>
      match skip with
      | S k => replace_anchored m false k rest
      | O =>
          match m at_start s with
          | Some (out, len) =>
              out ++ replace_anchored m false (Nat.pred len) rest
          | None => c :: replace_anchored m false 0 rest
          end
      end
  end.

Definition is_quote (c : N) : bool := (c =? 34) || (c =? 39).

(** [/^["']|["']$/]: a quote at the beginning, or a quote at the end. *)
Definition match_outer_quote (at_start : bool) : matcher :=
  fun s =>
    match s with
    | c :: r =>
        if is_quote c
           && (at_start || match r with [] => true | _ => false end)
        then Some ([], 1%nat) else None
    | [] => None
    end.

(** A click on an example of the welcome block, whose text is
    [textContent]. *)
Definition clickExample (textContent : list N)
    (store : gmap (list N) (list N)) (send_fails : bool)
  : M ChatManager unit :=
  modify (set_inputValue
            (replace_anchored match_outer_quote true 0 textContent)) ;;
  sendMessage store send_fails.

(** ** api-keys.js: [hasKeys] *)
Definition hasKeys (k : APIKeyManager) : bool :=
  opt_truthy (getAnthropicKey k) && opt_truthy (getOpenAIKey k).

(** ** news.js: [fetchForContractor] up to its [await] *)
Definition fetchForContractor (contractor : list N) (n : NewsManager)
  : NewsManager :=
  let n := showLoadingNews n in
  {| items := items n;
     requests :=
       requests n ++
       [{| q_query := Some (js "flood control infrastructure");
           q_contractor := Some contractor; q_location := None |}] |}.

(** ** Vocabulary of the further properties *)

(** The message rows of a chat log, in order. *)
Definition message_rows (l : list node) : list node :=
  List.filter
    (fun n => match n with MessageDiv _ _ => true | _ => false end) l.

(** Text without any unit the formatter looks for. *)
Definition plain_text (s : list N) : Prop :=
  Forall (fun c => c <> amp /\ c <> lt /\ c <> gt /\ c <> star
                   /\ c <> newline) s.

(** The entity of one code unit. *)
Definition entity (c : N) : list N :=
  if c =? amp then js "&amp;"
  else if c =? lt then js "&lt;"
  else if c =? gt then js "&gt;"
  else [c].

(** The markers on the map are those of the current projects, and the
    cluster group holds the same markers as the array. *)
Definition markers_in_step (a : FloodGuardApp) : Prop :=
  markers (map a) = markers_of (currentProjects a)
  /\ layers (map a) = markers (map a).

(** No event of the run opens a socket. *)
Definition never_opens (ops : list op) : Prop :=
  Forall (fun o => o <> SocketOpen) ops.

(** A project described under both keys. *)
Definition twice_described : Project :=
  {| lat := None; latitude := None; lon := None; longitude := None;
     description := Some (js "Flood wall");
     project_description := Some (js "Construction of flood wall");
     contractor := Some (js "N/A"); contract_cost := None;
     ContractCost := None; abc := None; ABC := None;
     municipality := Some (js "Lingayen"); Municipality := None;
     province := None; Province := Some (js "Pangasinan"); region := None;
     Region := None; type_of_work := None; TypeofWork := None;
     infra_year := None; InfraYear := None; start_date := None;
     StartDate := None; completion_date_actual := None;
     CompletionDateActual := None |}.

(** The tags written by the bold and the italic pass. *)
Definition span_tags : list (list N) :=
  [js "<strong>"; js "</strong>"; js "<em>"; js "</em>"].

(** A string in which every angle bracket belongs to one of these tags:
    the text as it is before the line breaks are replaced. *)
Inductive span_safe : list N -> Prop :=
| span_nil : span_safe []
| span_unit c r : c <> lt -> c <> gt -> span_safe r -> span_safe (c :: r)
| span_tag t r : In t span_tags -> span_safe r -> span_safe (t ++ r).

(** How often the code unit [c] occurs in [s]. *)
Fixpoint count_unit (c : N) (s : list N) : nat :=
  match s with
  | [] => 0
  | x :: r => ((if (x =? c)%N then 1 else 0) + count_unit c r)%nat
  end.

(* PROPERTIES *)

(** * Properties *)

(** ** The formatter *)

Lemma replace_from_skipn (m : matcher) (s : list N) :
  forall k, replace_from m k s = replace_from m 0 (skipn k s).
Proof.
  induction s as [|c r IH]; intros [|k]; simpl; try reflexivity.
  apply IH.
Qed.

Lemma replace_unit_flat_map (c : N) (out s : list N) :
  replace_all (match_unit c out) s
  = flat_map (fun x => if x =? c then out else [x]) s.
Proof.
  unfold replace_all.
  induction s as [|x r IH]; simpl; [reflexivity|].
  destruct (x =? c); simpl; rewrite IH; reflexivity.
Qed.

Lemma span_nostar_spec (s : list N) :
  forall g rest, span_nostar s = (g, rest) ->
    s = g ++ rest /\ Forall (fun c => c <> star) g.
Proof.
  induction s as [|c r IH]; simpl; intros g rest H.
  - inversion H; subst. split; [reflexivity|constructor].
  - destruct (N.eqb_spec c star) as [->|Hne].
    + inversion H; subst. split; [reflexivity|constructor].
    + destruct (span_nostar r) as [g' rest'] eqn:E.
      inversion H; subst.
      destruct (IH g' rest eq_refl) as [-> Hg].
      split; [reflexivity|constructor; assumption].
Qed.

Lemma markup_safe_app (a b : list N) :
  markup_safe a -> markup_safe b -> markup_safe (a ++ b).
Proof.
  induction 1 as [|c r Hl Hg _ IH|t r Ht _ IH]; intros Hb; simpl.
  - assumption.
  - constructor; auto.
  - rewrite <- app_assoc. constructor; auto.
Qed.

Lemma markup_safe_plain (s : list N) :
  Forall (fun c => c <> lt /\ c <> gt) s -> markup_safe s.
Proof.
  induction 1 as [|c r [Hl Hg] _ IH]; constructor; assumption.
Qed.

Lemma tag_has_no_star (t : list N) :
  In t formatter_tags -> Forall (fun c => c <> star) t.
Proof.
  unfold formatter_tags; simpl.
  intros [<-|[<-|[<-|[<-|[<-|[]]]]]];
    repeat constructor; unfold star; discriminate.
Qed.

(** A string that starts with a star-free [t] and holds a star further on
    than [a] has [t] inside [a]. *)
Lemma star_free_prefix (t : list N) :
  Forall (fun c => c <> star) t ->
  forall a b r, a ++ star :: b = t ++ r ->
    exists a', a = t ++ a' /\ r = a' ++ star :: b.
Proof.
  induction 1 as [|x t Hx _ IH]; intros a b r E; simpl in *.
  - exists a. split; [reflexivity|symmetry; assumption].
  - destruct a as [|y a]; simpl in E; inversion E; subst.
    + contradiction.
    + destruct (IH a b r H1) as [a' [-> ->]].
      exists a'. split; reflexivity.
Qed.

Lemma markup_safe_split_star (s : list N) :
  markup_safe s ->
  forall a b, s = a ++ star :: b -> markup_safe a /\ markup_safe b.
Proof.
  induction 1 as [|c r Hl Hg Hr IH|t r Ht Hr IH]; intros a b E.
  - destruct a; discriminate.
  - destruct a as [|y a]; simpl in E; inversion E; subst.
    + split; [constructor|assumption].
    + destruct (IH a b eq_refl) as [Ha Hb].
      split; [constructor|]; assumption.
  - symmetry in E.
    destruct (star_free_prefix t (tag_has_no_star t Ht) a b r E)
      as [a' [-> ->]].
    destruct (IH a' b eq_refl) as [Ha Hb].
    split; [constructor|]; assumption.
Qed.

Lemma escapeHtml_plain (text : list N) :
  Forall (fun c => c <> lt /\ c <> gt) (escapeHtml text).
Proof.
  unfold escapeHtml. rewrite !replace_unit_flat_map.
  set (s1 := flat_map _ text).
  assert (H2 : Forall (fun c => c <> lt)
                 (flat_map (fun x => if x =? lt then js "&lt;" else [x]) s1)).
  { apply Forall_flat_map, Forall_forall. intros x _.
    destruct (N.eqb_spec x lt) as [->|Hne].
    - repeat constructor; unfold lt; discriminate.
    - repeat constructor; assumption. }
  apply Forall_flat_map.
  eapply Forall_impl; [exact H2|]. intros x Hx. simpl in Hx.
  destruct (N.eqb_spec x gt) as [->|Hne].
  - repeat constructor; unfold lt, gt; discriminate.
  - repeat constructor; assumption.
Qed.

Lemma match_bold_spec (s out : list N) (len : nat) :
  match_bold s = Some (out, len) ->
  exists g tl,
    g <> [] /\ s = star :: star :: g ++ star :: star :: tl
    /\ out = js "<strong>" ++ g ++ js "</strong>"
    /\ len = (4 + length g)%nat.
Proof.
  unfold match_bold. intros E.
  destruct s as [|c1 [|c2 r]]; try discriminate.
  destruct (N.eqb_spec c1 star) as [->|]; [|discriminate].
  destruct (N.eqb_spec c2 star) as [->|]; [|discriminate].
  cbn [andb] in E.
  destruct (span_nostar r) as [g tl] eqn:Esp.
  destruct (span_nostar_spec r _ _ Esp) as [-> _].
  destruct g as [|x g]; [discriminate|].
  destruct tl as [|d1 [|d2 tl]]; try discriminate.
  destruct (N.eqb_spec d1 star) as [->|]; [|discriminate].
  destruct (N.eqb_spec d2 star) as [->|]; [|discriminate].
  cbn [andb] in E. injection E as <- <-.
  exists (x :: g), tl. repeat split; discriminate.
Qed.

Lemma match_italic_spec (s out : list N) (len : nat) :
  match_italic s = Some (out, len) ->
  exists g tl,
    g <> [] /\ Forall (fun c => c <> star) g
    /\ s = star :: g ++ star :: tl
    /\ out = js "<em>" ++ g ++ js "</em>"
    /\ len = (2 + length g)%nat.
Proof.
  unfold match_italic. intros E.
  destruct s as [|c1 r]; try discriminate.
  destruct (N.eqb_spec c1 star) as [->|]; [|discriminate].
  destruct (span_nostar r) as [g tl] eqn:Esp.
  destruct (span_nostar_spec r _ _ Esp) as [-> Hg].
  destruct g as [|x g]; [discriminate|].
  destruct tl as [|d1 tl]; try discriminate.
  destruct (N.eqb_spec d1 star) as [->|]; [|discriminate].
  injection E as <- <-.
  exists (x :: g), tl. repeat split; try assumption; discriminate.
Qed.

Lemma skipn_past (a b : list N) (k : nat) :
  skipn (length a + k) (a ++ b) = skipn k b.
Proof.
  induction a as [|x a IH]; simpl; [reflexivity|exact IH].
Qed.

Lemma bold_safe (n : nat) :
  forall s, (length s <= n)%nat -> Forall (fun c => c <> lt /\ c <> gt) s ->
    markup_safe (replace_from match_bold 0 s).
Proof.
  induction n as [|n IH]; intros s Hlen Hs.
  { destruct s; [constructor|simpl in Hlen; lia]. }
  destruct s as [|c rest]; [constructor|].
  assert (Hrest : Forall (fun c => c <> lt /\ c <> gt) rest)
    by (inversion Hs; assumption).
  assert (Hc : c <> lt /\ c <> gt) by (inversion Hs; assumption).
  assert (Hskip : markup_safe (c :: replace_from match_bold 0 rest)).
  { constructor; try tauto. apply IH; [simpl in Hlen; lia|assumption]. }
  cbn [replace_from].
  destruct (match_bold (c :: rest)) as [[out len]|] eqn:E; [|exact Hskip].
  destruct (match_bold_spec _ _ _ E) as (g & tl & Hne & Hshape & -> & ->).
  injection Hshape as -> ->.
  rewrite replace_from_skipn.
  replace (skipn (Nat.pred (4 + length g)) (star :: g ++ star :: star :: tl))
    with tl.
  2:{ cbn [Nat.pred Nat.add skipn].
      replace (S (S (length g))) with (length g + 2)%nat by lia.
      rewrite skipn_past. reflexivity. }
  apply Forall_cons_iff in Hrest as [_ Hr].
  apply Forall_app in Hr as [Hg Htl].
  apply Forall_cons_iff in Htl as [_ Htl].
  apply Forall_cons_iff in Htl as [_ Htl].
  rewrite <- !app_assoc.
  apply safe_tag; [simpl; auto|].
  apply markup_safe_app; [apply markup_safe_plain; assumption|].
  apply safe_tag; [simpl; auto|].
  apply IH; [|assumption].
  simpl in Hlen. rewrite length_app in Hlen. simpl in Hlen. lia.
Qed.

Lemma italic_passes_tag (t r : list N) :
  In t formatter_tags ->
  replace_from match_italic 0 (t ++ r) = t ++ replace_from match_italic 0 r.
Proof.
  unfold formatter_tags; simpl.
  intros [<-|[<-|[<-|[<-|[<-|[]]]]]]; reflexivity.
Qed.

Lemma italic_safe (n : nat) :
  forall s, (length s <= n)%nat -> markup_safe s ->
    markup_safe (replace_from match_italic 0 s).
Proof.
  induction n as [|n IH]; intros s Hlen Hs.
  { destruct s; [constructor|simpl in Hlen; lia]. }
  destruct Hs as [|c rest Hl Hg Hrest|t r Ht Hr].
  - constructor.
  - assert (Hskip : markup_safe (c :: replace_from match_italic 0 rest)).
    { constructor; try assumption. apply IH; [simpl in Hlen; lia|assumption]. }
    cbn [replace_from].
    destruct (match_italic (c :: rest)) as [[out len]|] eqn:E; [|exact Hskip].
    destruct (match_italic_spec _ _ _ E)
      as (g & tl & Hne & Hstar & Hshape & -> & ->).
    injection Hshape as -> ->.
    rewrite replace_from_skipn.
    replace (skipn (Nat.pred (2 + length g)) (g ++ star :: tl)) with tl.
    2:{ cbn [Nat.pred Nat.add].
        replace (S (length g)) with (length g + 1)%nat by lia.
        rewrite skipn_past. reflexivity. }
    destruct (markup_safe_split_star _ Hrest g tl eq_refl) as [Hsg Hstl].
    rewrite <- !app_assoc.
    apply safe_tag; [simpl; auto|].
    apply markup_safe_app; [assumption|].
    apply safe_tag; [simpl; auto 6|].
    apply IH; [|assumption].
    simpl in Hlen. rewrite length_app in Hlen. simpl in Hlen. lia.
  - rewrite italic_passes_tag by assumption.
    apply safe_tag; [assumption|].
    destruct t as [|x t].
    { exfalso. revert Ht. unfold formatter_tags; simpl.
      intros [H|[H|[H|[H|[H|[]]]]]]; discriminate. }
    apply IH; [|assumption].
    simpl in Hlen. rewrite length_app in Hlen. lia.
Qed.

Lemma linebreaks_safe (s : list N) :
  markup_safe s ->
  markup_safe (replace_all (match_unit newline (js "<br>")) s).
Proof.
  rewrite replace_unit_flat_map.
  induction 1 as [|c r Hl Hg _ IH|t r Ht _ IH].
  - constructor.
  - cbn [flat_map]. destruct (c =? newline).
    + apply (safe_tag (js "<br>")); [simpl; auto 6|assumption].
    + constructor; assumption.
  - rewrite flat_map_app.
    replace (flat_map (fun x => if x =? newline then js "<br>" else [x]) t)
      with t.
    + constructor; assumption.
    + revert Ht. unfold formatter_tags; simpl.
      intros [<-|[<-|[<-|[<-|[<-|[]]]]]]; reflexivity.
Qed.

Lemma escapeHtml_entities (text : list N) :
  escapeHtml text = flat_map entity text.
Proof.
  unfold escapeHtml. rewrite !replace_unit_flat_map.
  induction text as [|c text IH]; [reflexivity|].
  cbn [flat_map]. rewrite !flat_map_app, IH. f_equal.
  unfold entity.
  destruct (N.eqb_spec c amp) as [->|Ha]; [reflexivity|].
  cbn [flat_map app].
  destruct (N.eqb_spec c lt) as [->|Hl]; [reflexivity|].
  cbn [flat_map app].
  destruct (N.eqb_spec c gt) as [->|Hg]; reflexivity.
Qed.

(** C3. The formatter escapes before it scans and matches bold before
    italic. Escaping replaces every ampersand by [&amp;], every [<] by
    [&lt;] and every [>] by [&gt;] and keeps every other unit, so the
    escaped text holds no angle bracket and, in the result, every angle
    bracket belongs to a tag the formatter wrote itself; the script input
    comes out as literal text, an ampersand comes out as its entity, and
    [**bold** and *italic*] comes out with one strong region and one em
    region. *)
Theorem parseMarkdown_escapes_then_formats :
  (forall text,
     escapeHtml text = flat_map entity text
     /\ includes (escapeHtml text) lt = false
     /\ includes (escapeHtml text) gt = false
     /\ markup_safe (parseMarkdown text))
  /\ parseMarkdown (js "<script>alert(1)</script>")
     = js "&lt;script&gt;alert(1)&lt;/script&gt;"
  /\ includes (parseMarkdown (js "<script>alert(1)</script>")) lt = false
  /\ parseMarkdown (js "R&D <b> &lt;") = js "R&amp;D &lt;b&gt; &amp;lt;"
  /\ parseMarkdown (js "**bold** and *italic*")
     = js "<strong>bold</strong> and <em>italic</em>"
  /\ occurrences (js "<strong>") (parseMarkdown (js "**bold** and *italic*"))
     = 1%nat
  /\ occurrences (js "<em>") (parseMarkdown (js "**bold** and *italic*"))
     = 1%nat.
Proof.
  split; [|repeat split; vm_compute; reflexivity].
  intros text.
  pose proof (escapeHtml_plain text) as Hp.
  split; [apply escapeHtml_entities|].
  repeat split.
  - unfold includes. apply not_true_iff_false. intros H.
    apply existsb_exists in H as (x & Hin & Hx).
    apply N.eqb_eq in Hx. subst x.
    rewrite List.Forall_forall in Hp. destruct (Hp lt Hin) as [H _]. congruence.
  - unfold includes. apply not_true_iff_false. intros H.
    apply existsb_exists in H as (x & Hin & Hx).
    apply N.eqb_eq in Hx. subst x.
    rewrite List.Forall_forall in Hp. destruct (Hp gt Hin) as [_ H]. congruence.
  - unfold parseMarkdown. cbv zeta.
    apply linebreaks_safe.
    apply (italic_safe _ _ (le_n _)).
    apply (bold_safe _ _ (le_n _)).
    exact Hp.
Qed.

(** ** The chat log *)

Lemma remove_first_snoc (p : node -> bool) (l : list node) (x : node) :
  p x = false -> remove_first p (l ++ [x]) = remove_first p l ++ [x].
Proof.
  intros Hx. induction l as [|n r IH]; simpl.
  - rewrite Hx. reflexivity.
  - destruct (p n); [reflexivity|]. rewrite IH. reflexivity.
Qed.

Lemma cleared_snoc (l : list node) (r : role) (html : list N) :
  cleared (l ++ [MessageDiv r html]) = cleared l ++ [MessageDiv r html].
Proof.
  unfold cleared. rewrite !remove_first_snoc by reflexivity. reflexivity.
Qed.

Lemma iter_cleared_snoc (n : nat) (l : list node) (r : role) (html : list N) :
  Nat.iter n cleared (l ++ [MessageDiv r html])
  = Nat.iter n cleared l ++ [MessageDiv r html].
Proof.
  induction n as [|n IH]; simpl; [reflexivity|].
  rewrite IH. apply cleared_snoc.
Qed.

Lemma handle_fragment {A} (onMessage : option (Data -> A -> A))
    (text : list N) (fin : bool) (c : ChatManager) (a : A) :
  messagesContainer
    (fst (step onMessage (c, a) (SocketMessage (Decoded (fragment text fin)))))
  = cleared (messagesContainer c) ++ [MessageDiv assistant (parseMarkdown text)].
Proof. destruct fin; reflexivity. Qed.

(** Every [message] frame gets a row of its own: after a run of fragments
    the log has grown by one assistant row per fragment, each holding the
    rendering of that fragment alone. *)
Lemma fragments_one_row_each {A} (onMessage : option (Data -> A -> A))
    (frags : list (list N * bool)) :
  forall (c : ChatManager) (a : A),
    messagesContainer
      (fst (run onMessage
              (List.map (fun f => SocketMessage (Decoded (fragment (fst f) (snd f))))
                 frags) (c, a)))
    = Nat.iter (length frags) cleared (messagesContainer c)
      ++ List.map (fun f => MessageDiv assistant (parseMarkdown (fst f))) frags.
Proof.
  induction frags as [|[text fin] frags IH]; intros c a.
  - simpl. rewrite app_nil_r. reflexivity.
  - cbn [List.map run fold_left fst snd length].
    destruct (step onMessage (c, a)
                (SocketMessage (Decoded (fragment text fin)))) as [c1 a1] eqn:E.
    change (fold_left (step onMessage) ?l ?s) with (run onMessage l s).
    rewrite IH.
    pose proof (handle_fragment onMessage text fin c a) as H.
    rewrite E in H. cbn [fst] in H. rewrite H.
    rewrite iter_cleared_snoc, Nat.iter_succ_r, <- app_assoc.
    reflexivity.
Qed.

(** C1. The code at the input on which it departs from the claim: two
    [message] frames of one turn, [Hello] with [done] false and [ world]
    with [done] true, leave two assistant rows in the log, one per frame,
    and no row holds the text of the whole reply; split inside a bold
    span, the two halves are rendered apart and the span is lost. *)
Theorem fragments_render_as_separate_bubbles :
  let turn (x y : list N) :=
    messagesContainer
      (fst (client_run no_dates
              [Chat (SocketMessage (Decoded (fragment x false))) 0;
               Chat (SocketMessage (Decoded (fragment y true))) 0]
              (awaiting_chat, new_FloodGuardApp))) in
  turn (js "Hello") (js " world")
  = [MessageDiv user (js "Show me 2025 projects in Pangasinan");
     MessageDiv assistant (js "Hello");
     MessageDiv assistant (js " world")]
  /\ ~ In (MessageDiv assistant (parseMarkdown (js "Hello world")))
          (turn (js "Hello") (js " world"))
  /\ turn (js "**bo") (js "ld**")
     = [MessageDiv user (js "Show me 2025 projects in Pangasinan");
        MessageDiv assistant (js "**bo");
        MessageDiv assistant (js "ld**")]
  /\ parseMarkdown (js "**bold**") = js "<strong>bold</strong>".
Proof.
  vm_compute. repeat split.
  intros [H|[H|[H|[]]]]; discriminate.
Qed.

(** ** The viewport *)

(** A [map_bounds] frame with two corners refits the map whatever the
    current projects are. *)
Lemma map_bounds_always_fits (Date_parse : list N -> option Z) (now : Z)
    (c0 c1 : float * float) (a : FloodGuardApp) :
  view (map (handleChatMessage Date_parse now (map_bounds_frame [c0; c1]) a))
  = FitBounds (snd c0, fst c0) (snd c1, fst c1).
Proof. reflexivity. Qed.

(** C2. The code at the input on which it departs from the claim: after a
    [projects] frame with one project at (14.5, 121), the map is fitted to
    the padded box of that coordinate; the [map_bounds] frame that follows
    replaces this view by its own box, although a project has a coordinate
    and a marker. *)
Theorem map_bounds_overrides_project_bounds :
  let a1 :=
    handleChatMessage no_dates 0 (projects_frame [project_at 14.5 121])
      new_FloodGuardApp in
  let a2 :=
    handleChatMessage no_dates 0
      (map_bounds_frame [(119.5, 15.75); (120.5, 16.5)]%float) a1 in
  view (map a1)
  = FitBounds ((14.5 - padding)%float, (121 - padding)%float)
              ((14.5 + padding)%float, (121 + padding)%float)
  /\ length (markers (map a2)) = 1%nat
  /\ view (map a2) = FitBounds (15.75, 119.5)%float (16.5, 120.5)%float
  /\ view (map a2) <> view (map a1).
Proof.
  cbv zeta. repeat split; try (vm_compute; reflexivity).
  intros H.
  apply (f_equal (fun v => match v with
                           | FitBounds (x, _) _ => (x <? 15)%float
                           | SetView _ _ => false
                           end)) in H.
  vm_compute in H. discriminate.
Qed.

(** ** Frames *)

Lemma addMessage_same_session (r : role) (content : option (list N))
    (c : ChatManager) :
  same_session c (snd (addMessage r content c)).
Proof. destruct content; repeat split. Qed.

Lemma handleMessage_same_session {A} (onMessage : option (Data -> A -> A))
    (d : Data) (c : ChatManager) (a : A) :
  same_session c (fst (snd (handleMessage onMessage d (c, a)))).
Proof.
  unfold handleMessage.
  destruct (type_is d (js "status")); [repeat split|].
  destruct (type_is d (js "message")).
  { destruct (content d), (done d); repeat split. }
  destruct (type_is d (js "projects") || type_is d (js "map_bounds")
            || type_is d (js "news")).
  { unfold forward. destruct onMessage; repeat split. }
  destruct (type_is d (js "error")); repeat split.
Qed.

(** C4, counterexample. Text that is not JSON makes the [onmessage]
    callback throw: handling a frame can raise. *)
Lemma malformed_frame_raises :
  fst (ws_onmessage (Some (handleChatMessage no_dates 0))
         (Malformed (js "{oops")) (awaiting_chat, new_FloodGuardApp))
  = Thrown SyntaxError.
Proof. reflexivity. Qed.

(** C4, amended. Handling a frame never closes the session: identifier,
    socket, connection flag and reconnect timers stay as they are. A frame
    of a type without a case is ignored, without an exception and with the
    whole client state unchanged. A frame that is not JSON makes
    [JSON.parse] throw [SyntaxError] out of the callback, uncaught, with the
    whole client state unchanged. *)
Theorem frames_keep_the_session {A} (onMessage : option (Data -> A -> A))
    (c : ChatManager) (a : A) :
  (forall f,
     same_session c (fst (snd (ws_onmessage onMessage f (c, a)))))
  /\ (forall d, recognized d = false ->
        ws_onmessage onMessage (Decoded d) (c, a) = (Returned tt, (c, a)))
  /\ (forall text,
        ws_onmessage onMessage (Malformed text) (c, a)
        = (Thrown SyntaxError, (c, a))).
Proof.
  split; [|split].
  - intros [text|d]; [repeat split|].
    apply handleMessage_same_session.
  - intros d Hd. unfold recognized in Hd.
    repeat (apply orb_false_elim in Hd as [Hd ?]).
    cbn [ws_onmessage]. unfold handleMessage.
    repeat match goal with H : type_is _ _ = false |- _ => rewrite H; clear H end.
    reflexivity.
  - intros text. reflexivity.
Qed.

Lemma frames_keep_the_session_witness :
  recognized tool_frame = false
  /\ ws_onmessage (Some (handleChatMessage no_dates 0)) (Decoded tool_frame)
       (awaiting_chat, new_FloodGuardApp)
     = (Returned tt, (awaiting_chat, new_FloodGuardApp)).
Proof.
  split; [reflexivity|].
  apply (frames_keep_the_session (Some (handleChatMessage no_dates 0))
           awaiting_chat new_FloodGuardApp).
  reflexivity.
Defined.

(** ** Project frames *)

Lemma addProjectMarker_spec (p : Project) (m : MapController) :
  addProjectMarker p m
  = {| markers := markers m ++ markers_of [p];
       layers := layers m ++ markers_of [p];
       view := view m; projectCount := projectCount m;
       totalBudget := totalBudget m |}.
Proof.
  unfold addProjectMarker, markers_of, project_marker. cbn [flat_map].
  destruct m as [ms ls v pc tb]; cbn.
  destruct (or_num (lat p) (latitude p)) as [la|];
    [|rewrite !app_nil_r; reflexivity].
  destruct (or_num (lon p) (longitude p)) as [lo|];
    [|rewrite !app_nil_r; reflexivity].
  destruct (num_truthy la), (num_truthy lo); cbn;
    rewrite ?app_nil_r; reflexivity.
Qed.

Lemma add_all_markers (ps : list Project) :
  forall m,
    fold_left (fun m p => addProjectMarker p m) ps m
    = {| markers := markers m ++ markers_of ps;
         layers := layers m ++ markers_of ps;
         view := view m; projectCount := projectCount m;
         totalBudget := totalBudget m |}.
Proof.
  induction ps as [|p ps IH]; intros m.
  - destruct m; cbn. rewrite !app_nil_r. reflexivity.
  - cbn [fold_left]. rewrite IH, addProjectMarker_spec.
    cbn [markers layers view projectCount totalBudget].
    rewrite <- !app_assoc.
    replace (markers_of [p] ++ markers_of ps) with (markers_of (p :: ps));
      [reflexivity|].
    unfold markers_of. cbn [flat_map]. rewrite app_nil_r. reflexivity.
Qed.

Lemma updateProjects_markers (ps : list Project) (m : MapController) :
  markers (updateProjects ps m) = markers_of ps
  /\ layers (updateProjects ps m) = markers_of ps
  /\ view (updateProjects ps m) = view m.
Proof.
  unfold updateProjects. destruct ps as [|p ps]; [repeat split|].
  rewrite add_all_markers. repeat split.
Qed.

(** C5, counterexample. A [projects] frame with a non-empty set leaves the
    news panel as it was and asks for no news, while the recompute for a
    project, as a click on its marker runs it, shows the skeleton and
    sends a query. *)
Lemma projects_frame_leaves_news_alone :
  news (handleChatMessage no_dates 0 (projects_frame [project_at 14.5 121])
          new_FloodGuardApp)
  = news new_FloodGuardApp
  /\ news (handleProjectClick no_dates 0 1280 (project_at 14.5 121)
             new_FloodGuardApp)
     = {| items := NewsLoading;
          requests := [{| q_query := None; q_contractor := None;
                          q_location := None |}] |}.
Proof. split; reflexivity. Qed.

(** C5, amended. A [projects] frame replaces [currentProjects] by its own
    set, whatever the set was before; the markers are those of the new set
    alone; when the set is not empty the map is fitted to its bounds and the
    details card shows its first element, otherwise card and view stay; the
    news panel is not touched; of two such frames, the later one alone
    determines [currentProjects]. *)
Theorem projects_frame_replaces_the_set (Date_parse : list N -> option Z)
    (now : Z) (d : Data) (a : FloodGuardApp) :
  type_is d (js "projects") = true ->
  let ps := data_projects (data d) in
  let a' := handleChatMessage Date_parse now d a in
  currentProjects a' = ps
  /\ (forall now2 d2, type_is d2 (js "projects") = true ->
        currentProjects (handleChatMessage Date_parse now2 d2 a')
        = data_projects (data d2))
  /\ markers (map a') = markers_of ps
  /\ layers (map a') = markers_of ps
  /\ news a' = news a
  /\ match ps with
     | first :: _ =>
         container (projectRenderer a')
         = CardShown (createProjectCard Date_parse first now)
         /\ view (map a')
            = view (fitBounds (Some (calculateBounds ps)) (map a))
     | [] =>
         projectRenderer a' = projectRenderer a /\ view (map a') = view (map a)
     end.
Proof.
  intros Ht ps a'.
  assert (Hcur : forall n0 d0 a0, type_is d0 (js "projects") = true ->
            currentProjects (handleChatMessage Date_parse n0 d0 a0)
            = data_projects (data d0)).
  { intros n0 d0 a0 H0. unfold handleChatMessage. rewrite H0.
    cbn. destruct (data_projects (data d0)); reflexivity. }
  split; [apply Hcur; assumption|].
  split; [intros; apply Hcur; assumption|].
  subst a'. unfold handleChatMessage. rewrite Ht.
  cbn [currentProjects set_currentProjects set_map map].
  fold ps.
  destruct (updateProjects_markers ps (clearMarkers (map a)))
    as (Hm & Hl & Hv).
  destruct ps as [|first rest] eqn:Eps.
  - repeat split; reflexivity.
  - assert (Hb : exists c0 c1, calculateBounds (first :: rest) = [c0; c1]).
    { unfold calculateBounds.
      destruct (project_lats (first :: rest)), (project_lons (first :: rest));
        unfold default_bounds; eauto. }
    destruct Hb as (c0 & c1 & Hb). rewrite Hb.
    cbn [currentProjects set_currentProjects set_map set_projectRenderer
         map projectRenderer news fitBounds markers layers view
         render container].
    repeat split; assumption.
Qed.

Lemma projects_frame_replaces_the_set_witness :
  currentProjects
    (handleChatMessage no_dates 0 (projects_frame [project_at 14.5 121])
       (handleChatMessage no_dates 0 (projects_frame [project_at 15 120])
          new_FloodGuardApp))
  = [project_at 14.5 121].
Proof.
  exact (proj1 (projects_frame_replaces_the_set no_dates 0
                  (projects_frame [project_at 14.5 121])
                  (handleChatMessage no_dates 0
                     (projects_frame [project_at 15 120]) new_FloodGuardApp)
                  eq_refl)).
Defined.

(** ** Sending *)

(** C6, counterexample. With no key in the store and an empty input, an
    attempted send changes nothing at all: no message is shown. *)
Lemma empty_input_is_not_prompted :
  keys_configured ∅ = false
  /\ sendMessage ∅ false idle_chat = (Returned tt, idle_chat).
Proof. split; reflexivity. Qed.

(** C6, amended. When a key is missing, an attempted send transmits no
    frame and does not enter the pending state: the send button, the input
    and the session stay as they are and no typing indicator appears. If
    the trimmed input is not empty and the connection is open, the user is
    prompted: the warning is appended to the log as an assistant row;
    otherwise the attempt is ignored and the state is unchanged. *)
Theorem send_without_keys (store : gmap (list N) (list N))
    (send_fails : bool) (c : ChatManager) :
  keys_configured store = false ->
  let r := sendMessage store send_fails c in
  fst r = Returned tt
  /\ sent (snd r) = sent c
  /\ sendDisabled (snd r) = sendDisabled c
  /\ inputValue (snd r) = inputValue c
  /\ same_session c (snd r)
  /\ (if str_truthy (trim (inputValue c)) && isConnected c
      then messagesContainer (snd r)
           = remove_first is_welcome (messagesContainer c)
             ++ [MessageDiv assistant (parseMarkdown keys_warning)]
      else snd r = c).
Proof.
  unfold keys_configured, sendMessage. intros Hk.
  destruct (str_truthy (trim (inputValue c))), (isConnected c);
    cbn [negb orb andb]; try (repeat split; fail).
  destruct (store !! ANTHROPIC_KEY) as [ak|]; [|repeat split].
  destruct (store !! OPENAI_KEY) as [ok|]; [|repeat split].
  cbn [opt_truthy] in Hk.
  destruct (str_truthy ak), (str_truthy ok); try discriminate;
    repeat split.
Qed.

Lemma send_without_keys_witness :
  let c := set_inputValue (js "Show projects") idle_chat in
  keys_configured ∅ = false
  /\ sent (snd (sendMessage ∅ false c)) = []
  /\ messagesContainer (snd (sendMessage ∅ false c))
     = [MessageDiv assistant (parseMarkdown keys_warning)].
Proof.
  cbv zeta. split; [reflexivity|].
  pose proof (send_without_keys ∅ false
                (set_inputValue (js "Show projects") idle_chat) eq_refl)
    as (_ & Hs & _ & _ & _ & Hm).
  split; [exact Hs|exact Hm].
Defined.

(** ** The session identifier *)

Lemma addMessage_some (r : role) (text : list N) (c : ChatManager) :
  addMessage r (Some text) c
  = (Returned tt,
     set_messagesContainer
       (remove_first is_welcome (messagesContainer c)
        ++ [MessageDiv r (parseMarkdown text)]) c).
Proof. reflexivity. Qed.

Lemma bind_eq {S A B} (m : M S A) (k : A -> M S B) (s : S) :
  bind m k s
  = match m s with
    | (Returned a, s') => k a s'
    | (Thrown e, s') => (Thrown e, s')
    end.
Proof. reflexivity. Qed.

Lemma try_catch_eq {S A} (m : M S A) (h : exn -> M S A) (s : S) :
  try_catch m h s
  = match m s with
    | (Returned a, s') => (Returned a, s')
    | (Thrown e, s') => h e s'
    end.
Proof. reflexivity. Qed.

Lemma modify_eq {S} (f : S -> S) (s : S) : modify f s = (Returned tt, f s).
Proof. reflexivity. Qed.

Ltac run_step :=
  rewrite ?bind_eq, ?try_catch_eq, ?modify_eq, ?addMessage_some;
  cbv beta iota.

Ltac chat_fields :=
  cbn [fst snd sessionId ws isConnected messagesContainer inputValue
       sendDisabled sockets sent timers set_ws set_isConnected
       set_messagesContainer set_inputValue set_sendDisabled set_sockets
       set_sent set_timers].

Lemma sendMessage_session (store : gmap (list N) (list N)) (send_fails : bool)
    (c : ChatManager) :
  let c' := snd (sendMessage store send_fails c) in
  sessionId c' = sessionId c
  /\ (sent c' = sent c
      \/ exists sock u, sent c' = sent c ++ [(sock, u)]
                        /\ u_session_id u = sessionId c).
Proof.
  unfold sendMessage.
  destruct (negb (str_truthy (trim (inputValue c))) || negb (isConnected c));
    [split; [reflexivity|left; reflexivity]|].
  destruct (store !! ANTHROPIC_KEY) as [ak|];
    [|run_step; chat_fields; split; [reflexivity|left; reflexivity]].
  destruct (store !! OPENAI_KEY) as [ok|];
    [|run_step; chat_fields; split; [reflexivity|left; reflexivity]].
  destruct (negb (str_truthy ak) || negb (str_truthy ok));
    [run_step; chat_fields; split; [reflexivity|left; reflexivity]|].
  repeat run_step. unfold ws_send. chat_fields.
  destruct (ws c) as [sock|]; [destruct send_fails|];
    unfold showError, addTypingIndicator; repeat run_step; chat_fields.
  - split; [reflexivity|left; reflexivity].
  - split; [reflexivity|right]. eexists _, _. split; reflexivity.
  - split; [reflexivity|left; reflexivity].
Qed.

Lemma connect_session (ctor_throws : bool) (c : ChatManager) :
  sessionId (snd (connect ctor_throws c)) = sessionId c
  /\ sent (snd (connect ctor_throws c)) = sent c.
Proof. destruct ctor_throws; split; reflexivity. Qed.

Lemma step_session {A} (onMessage : option (Data -> A -> A))
    (s : ChatManager * A) (o : op) :
  sessionId (fst (step onMessage s o)) = sessionId (fst s)
  /\ (sent (fst (step onMessage s o)) = sent (fst s)
      \/ exists sock u,
           sent (fst (step onMessage s o)) = sent (fst s) ++ [(sock, u)]
           /\ u_session_id u = sessionId (fst s)).
Proof.
  destruct s as [c a]. unfold step.
  destruct o as [v|store fails| |f| | |i ct]; cbn [dispatch fst snd].
  - split; [reflexivity|left; reflexivity].
  - unfold in_chat. cbn [fst snd].
    pose proof (sendMessage_session store fails c) as H. cbv zeta in H.
    destruct (sendMessage store fails c) as [r c']. exact H.
  - split; [reflexivity|left; reflexivity].
  - destruct f as [text|d]; [split; [reflexivity|left; reflexivity]|].
    destruct (handleMessage_same_session onMessage d c a)
      as (Hid & _ & _ & _ & Hsent & _).
    split; [exact Hid|left; exact Hsent].
  - split; [reflexivity|left; reflexivity].
  - split; [reflexivity|left; reflexivity].
  - destruct (timers c !! i) as [[[] delay]|];
      [|split; [reflexivity|left; reflexivity]].
    destruct ct; split; try reflexivity; left; reflexivity.
Qed.

Lemma client_step_session (Date_parse : list N -> option Z)
    (s : ChatManager * FloodGuardApp) (e : event) :
  sessionId (fst (client_step Date_parse s e)) = sessionId (fst s)
  /\ (forall id, sessionId (fst s) = id -> all_sent_with id (fst s) ->
        all_sent_with id (fst (client_step Date_parse s e))).
Proof.
  destruct e as [o now|p w now|arts]; cbn [client_step fst];
    try (split; [reflexivity|intros; assumption]).
  destruct (step_session (Some (handleChatMessage Date_parse now)) s o)
    as [Hid Hsent].
  split; [exact Hid|].
  intros id Hs Hall. unfold all_sent_with in *.
  destruct Hsent as [->|(sock & u & -> & Hu)]; [assumption|].
  apply Forall_app. split; [assumption|].
  constructor; [|constructor]. cbn. congruence.
Qed.

Lemma client_run_session (Date_parse : list N -> option Z) (es : list event) :
  forall s id,
    sessionId (fst s) = id -> all_sent_with id (fst s) ->
    sessionId (fst (client_run Date_parse es s)) = id
    /\ all_sent_with id (fst (client_run Date_parse es s)).
Proof.
  induction es as [|e es IH]; intros s id Hid Hall; [split; assumption|].
  cbn [client_run fold_left].
  destruct (client_step_session Date_parse s e) as [H1 H2].
  apply IH; [congruence|apply H2; assumption].
Qed.

(** C7. The identifier is the one the constructor got from [generateId],
    and nothing changes it afterwards: it is the same after any event and
    any sequence of events of the page. A close event, which is how a
    failed opening and a dropped connection both end (the error event
    before it schedules nothing), schedules exactly one reconnect, at 3000
    milliseconds; when that timer fires, one new socket is made and the
    timer is gone. Every frame ever sent carries the identifier of the
    constructor. *)
Theorem session_id_is_stable (Date_parse : list N -> option Z) :
  (forall id page disabled ct,
     sessionId (snd (new_ChatManager id page disabled ct)) = id)
  /\ (forall s e,
        sessionId (fst (client_step Date_parse s e)) = sessionId (fst s))
  /\ (forall es s,
        sessionId (fst (client_run Date_parse es s)) = sessionId (fst s))
  /\ (forall c a now,
        let s := client_step Date_parse (c, a) (Chat SocketClose now) in
        timers (fst s) = timers c ++ [(Reconnect, 3000)]
        /\ sockets (fst s) = sockets c)
  /\ (forall c a now,
        timers (fst (client_step Date_parse (c, a) (Chat SocketError now)))
        = timers c)
  /\ (forall c a now i delay,
        timers c !! i = Some (Reconnect, delay) ->
        let s := client_step Date_parse (c, a) (Chat (TimerFires i false) now) in
        timers (fst s) = delete i (timers c)
        /\ ws (fst s) = Some (sockets c)
        /\ sockets (fst s) = S (sockets c)
        /\ sessionId (fst s) = sessionId c)
  /\ (forall id page disabled ct es,
        let s :=
          client_run Date_parse es
            (snd (new_ChatManager id page disabled ct), new_FloodGuardApp) in
        sessionId (fst s) = id /\ all_sent_with id (fst s)).
Proof.
  assert (Hnew : forall id page disabled ct,
            sessionId (snd (new_ChatManager id page disabled ct)) = id
            /\ sent (snd (new_ChatManager id page disabled ct)) = []).
  { intros id page disabled []; split; reflexivity. }
  split; [intros; apply Hnew|].
  split; [intros; apply client_step_session|].
  split.
  { intros es. induction es as [|e es IH]; intros s; [reflexivity|].
    change (client_run Date_parse (e :: es) s)
      with (client_run Date_parse es (client_step Date_parse s e)).
    rewrite IH. apply client_step_session. }
  split; [intros c a now; split; reflexivity|].
  split; [intros c a now; reflexivity|].
  split.
  { intros c a now i delay Hi.
    cbv zeta. unfold client_step, step, dispatch. cbn [fst snd].
    rewrite Hi. repeat split. }
  intros id page disabled ct es.
  destruct (Hnew id page disabled ct) as [Hid Hsent].
  apply client_run_session; [exact Hid|].
  unfold all_sent_with. cbn [fst]. rewrite Hsent. constructor.
Qed.

Lemma session_id_is_stable_witness :
  let c := set_timers [(Reconnect, 3000)] (set_isConnected false idle_chat) in
  let s :=
    client_step no_dates (c, new_FloodGuardApp) (Chat (TimerFires 0 false) 0) in
  timers c !! 0%nat = Some (Reconnect, 3000)
  /\ timers (fst s) = [] /\ ws (fst s) = Some 1%nat
  /\ sessionId (fst s) = js "s1".
Proof.
  cbv zeta. split; [reflexivity|].
  destruct (session_id_is_stable no_dates) as (_ & _ & _ & _ & _ & H & _).
  destruct (H (set_timers [(Reconnect, 3000)]
                 (set_isConnected false idle_chat))
              new_FloodGuardApp 0%Z 0%nat 3000 eq_refl)
    as (Ht & Hw & _ & Hs).
  split; [exact Ht|]. split; [exact Hw|exact Hs].
Defined.

(** ** The status of a project *)

(** C8. A project has no status of its own; the card computes it from the
    project and the clock at the time of rendering. It is [completed]
    exactly when the completion date is present, not empty, read by the
    browser as a date, and that date is before now, and [ongoing] in every
    other case; with the date removed it is [ongoing]. *)
Theorem status_is_derived_at_render_time (Date_parse : list N -> option Z)
    (project : Project) (now : Z) :
  let status p := card_status (createProjectCard Date_parse p now) in
  let done_before :=
    exists d t, completion_date project = Some d /\ d <> []
                /\ Date_parse d = Some t /\ (t < now)%Z in
  (status project = js "completed" <-> done_before)
  /\ (status project = js "ongoing" <-> ~ done_before)
  /\ status (without_completion_date project) = js "ongoing".
Proof.
  cbv zeta. unfold createProjectCard, completion_date.
  split; [|split; [|reflexivity]].
  - destruct (or_str (completion_date_actual project)
                (CompletionDateActual project)) as [d|] eqn:Ed.
    + destruct d as [|x d]; cbn [str_truthy card_status].
      * split; [intros H; discriminate H|].
        intros (d' & t & Hd & Hne & _). congruence.
      * destruct (Date_parse (x :: d)) as [t|] eqn:Et; cbn [date_before].
        -- destruct (Z.ltb_spec t now) as [Hlt|Hge]; cbn [card_status].
           ++ split; [intros _|reflexivity].
              exists (x :: d), t. repeat split; [discriminate|assumption..].
           ++ split; [intros H; discriminate H|].
              intros (d' & t' & Hd & _ & Ht & Hlt).
              injection Hd as <-. rewrite Et in Ht. injection Ht as <-. lia.
        -- cbn [card_status]. split; [intros H; discriminate H|].
           intros (d' & t' & Hd & _ & Ht & _).
           injection Hd as <-. congruence.
    + cbn [card_status]. split; [intros H; discriminate H|].
      intros (d' & t & Hd & _). discriminate.
  - destruct (or_str (completion_date_actual project)
                (CompletionDateActual project)) as [d|] eqn:Ed.
    + destruct d as [|x d]; cbn [str_truthy card_status].
      * split; [|reflexivity].
        intros _ (d' & t & Hd & Hne & _). congruence.
      * destruct (Date_parse (x :: d)) as [t|] eqn:Et; cbn [date_before].
        -- destruct (Z.ltb_spec t now) as [Hlt|Hge]; cbn [card_status].
           ++ split; [intros H; discriminate H|].
              intros Hn. exfalso. apply Hn.
              exists (x :: d), t. repeat split; [discriminate|assumption..].
           ++ split; [|reflexivity].
              intros _ (d' & t' & Hd & _ & Ht & Hlt).
              injection Hd as <-. rewrite Et in Ht. injection Ht as <-. lia.
        -- cbn [card_status]. split; [|reflexivity].
           intros _ (d' & t' & Hd & _ & Ht & _).
           injection Hd as <-. congruence.
    + cbn [card_status]. split; [|reflexivity].
      intros _ (d' & t & Hd & _). discriminate.
Qed.

Lemma status_is_derived_at_render_time_witness :
  card_status (createProjectCard one_date finished_project 1710460800001)
  = js "completed"
  /\ card_status (createProjectCard one_date finished_project 1710460800000)
     = js "ongoing"
  /\ card_status
       (createProjectCard one_date (without_completion_date finished_project)
          1710460800001)
     = js "ongoing".
Proof.
  destruct (status_is_derived_at_render_time one_date finished_project
              1710460800001) as (Hdone & _ & Hgone).
  destruct (status_is_derived_at_render_time one_date finished_project
              1710460800000) as (_ & Hnot & _).
  split; [|split].
  - apply Hdone.
    exists (js "2024-03-15"), 1710460800000%Z.
    repeat split. discriminate.
  - apply Hnot.
    intros (d & t & Hd & _ & Ht & Hlt).
    injection Hd as <-. injection Ht as <-. lia.
  - exact Hgone.
Defined.

(** ** Coordinates *)

Lemma filter_Boolean_app (xs ys : list (option float)) :
  filter_Boolean (xs ++ ys) = filter_Boolean xs ++ filter_Boolean ys.
Proof.
  induction xs as [|[x|] xs IH]; cbn [app filter_Boolean];
    [reflexivity| |exact IH].
  destruct (num_truthy x); [cbn; rewrite IH|]; auto.
Qed.

Lemma filter_Boolean_skip (v : option float) (xs : list (option float)) :
  optnum_truthy v = false -> filter_Boolean (v :: xs) = filter_Boolean xs.
Proof.
  destruct v as [x|]; cbn; [|reflexivity]. intros ->. reflexivity.
Qed.

Lemma filter_Boolean_without (f : Project -> option float) (p : Project)
    (before after : list Project) :
  optnum_truthy (f p) = false ->
  filter_Boolean (List.map f (before ++ p :: after))
  = filter_Boolean (List.map f (before ++ after)).
Proof.
  intros H. rewrite !List.map_app, !filter_Boolean_app. cbn [List.map].
  rewrite filter_Boolean_skip by assumption. reflexivity.
Qed.

Lemma calculateBounds_bounds_of (ps : list Project) :
  calculateBounds ps = bounds_of (project_lats ps) (project_lons ps).
Proof. destruct ps; reflexivity. Qed.

(** C9. A coordinate of [0] counts as no coordinate, for the marker and
    for the box alike. [lat] and [lon] are the values the code reads,
    [project.lat || project.latitude] and [project.lon ||
    project.longitude]. Zero is falsy like a missing member; a project
    whose [lat] or [lon] is falsy gets no marker and the controller is left
    as it was; the box is computed from the truthy latitudes and the
    truthy longitudes, and a falsy component is in neither list, so a
    project with no truthy coordinate does not bear on the box at all. *)
Theorem zero_coordinate_is_no_coordinate :
  (optnum_truthy (Some 0%float) = false
   /\ optnum_truthy (Some (-0)%float) = false
   /\ optnum_truthy None = false)
  /\ (forall p m,
        optnum_truthy (read_lat p) = false
        \/ optnum_truthy (read_lon p) = false ->
        addProjectMarker p m = m)
  /\ (forall ps,
        calculateBounds ps = bounds_of (project_lats ps) (project_lons ps))
  /\ (forall p before after,
        optnum_truthy (read_lat p) = false ->
        project_lats (before ++ p :: after) = project_lats (before ++ after))
  /\ (forall p before after,
        optnum_truthy (read_lon p) = false ->
        project_lons (before ++ p :: after) = project_lons (before ++ after))
  /\ (forall p before after,
        optnum_truthy (read_lat p) = false ->
        optnum_truthy (read_lon p) = false ->
        calculateBounds (before ++ p :: after)
        = calculateBounds (before ++ after)).
Proof.
  split; [repeat split|].
  split.
  { intros p m H. unfold addProjectMarker.
    unfold read_lat, read_lon in H.
    destruct (or_num (lat p) (latitude p)) as [la|]; [|reflexivity].
    destruct (or_num (lon p) (longitude p)) as [lo|]; [|reflexivity].
    cbn [optnum_truthy] in H.
    destruct H as [->| ->]; [reflexivity|].
    rewrite orb_true_r. reflexivity. }
  split; [exact calculateBounds_bounds_of|].
  split; [intros p b a H; apply (filter_Boolean_without _ p b a H)|].
  split; [intros p b a H; apply (filter_Boolean_without _ p b a H)|].
  intros p b a Hla Hlo. rewrite !calculateBounds_bounds_of.
  unfold project_lats, project_lons.
  rewrite (filter_Boolean_without (fun q => or_num (lat q) (latitude q))
             p b a Hla).
  rewrite (filter_Boolean_without (fun q => or_num (lon q) (longitude q))
             p b a Hlo).
  reflexivity.
Qed.

Lemma zero_coordinate_is_no_coordinate_witness :
  optnum_truthy (read_lat (project_at 0 121)) = false
  /\ addProjectMarker (project_at 0 121) (map new_FloodGuardApp)
     = map new_FloodGuardApp
  /\ project_lats [project_at 14.5 121; project_at 0 121] = [14.5%float]
  /\ project_lons [project_at 14.5 121; project_at 15 0] = [121%float]
  /\ calculateBounds [project_at 14.5 121; project_at 0 0]
     = calculateBounds [project_at 14.5 121].
Proof.
  destruct zero_coordinate_is_no_coordinate
    as (_ & Hmark & _ & Hlat & Hlon & Hbox).
  split; [reflexivity|].
  split; [apply Hmark; left; reflexivity|].
  split; [apply (Hlat (project_at 0 121) [project_at 14.5 121] []);
          reflexivity|].
  split; [apply (Hlon (project_at 15 0) [project_at 14.5 121] []);
          reflexivity|].
  apply (Hbox (project_at 0 0) [project_at 14.5 121] []); reflexivity.
Defined.

(** ** Stored keys *)

Lemma trimStart_suffix (s : list N) : exists sp, s = sp ++ trimStart s.
Proof.
  induction s as [|c r [sp IH]]; [exists []; reflexivity|].
  cbn [trimStart]. destruct (is_space c).
  - exists (c :: sp). cbn. rewrite <- IH. reflexivity.
  - exists []. reflexivity.
Qed.

Lemma trimStart_starts_clean (s : list N) : starts_clean (trimStart s).
Proof.
  induction s as [|c r IH]; [exact I|].
  cbn [trimStart]. destruct (is_space c) eqn:E; [exact IH|exact E].
Qed.

Lemma trimStart_clean (s : list N) : starts_clean s -> trimStart s = s.
Proof. destruct s as [|c r]; cbn; [reflexivity|intros ->; reflexivity]. Qed.

Lemma starts_clean_prefix (a b : list N) :
  starts_clean (a ++ b) -> a <> [] -> starts_clean a.
Proof. destruct a; [congruence|intros H _; exact H]. Qed.

Lemma trim_idempotent (s : list N) : trim (trim s) = trim s.
Proof.
  unfold trim.
  set (t := trimStart s). set (u := trimStart (rev t)).
  assert (Hu : starts_clean u) by apply trimStart_starts_clean.
  assert (Hru : starts_clean (rev u)).
  { destruct (trimStart_suffix (rev t)) as [sp Hsp]. fold u in Hsp.
    apply (f_equal (@rev N)) in Hsp. rewrite rev_involutive, rev_app_distr in Hsp.
    destruct u as [|x u'] eqn:Eu; [exact I|].
    apply (starts_clean_prefix _ (rev sp)).
    - rewrite <- Hsp. apply trimStart_starts_clean.
    - intros H. apply (f_equal (@length N)) in H.
      rewrite length_rev in H. discriminate. }
  rewrite (trimStart_clean _ Hru), rev_involutive, (trimStart_clean _ Hu).
  reflexivity.
Qed.

Lemma bullet_is_no_space : is_space bullet = false.
Proof. reflexivity. Qed.

Lemma includes_app (a b : list N) (c : N) :
  includes (a ++ b) c = includes a c || includes b c.
Proof. apply existsb_app. Qed.

Lemma includes_rev (s : list N) (c : N) : includes (rev s) c = includes s c.
Proof.
  induction s as [|x r IH]; [reflexivity|].
  cbn [rev]. rewrite includes_app, IH. cbn. rewrite orb_false_r.
  apply orb_comm.
Qed.

Lemma includes_trimStart (s : list N) :
  includes (trimStart s) bullet = includes s bullet.
Proof.
  induction s as [|x r IH]; [reflexivity|].
  cbn [trimStart]. destruct (is_space x) eqn:E; [|reflexivity].
  rewrite IH. unfold includes. cbn [existsb].
  destruct (N.eqb_spec bullet x) as [<-|]; [|reflexivity].
  rewrite bullet_is_no_space in E. discriminate.
Qed.

Lemma includes_trim (s : list N) : includes (trim s) bullet = includes s bullet.
Proof.
  unfold trim.
  rewrite includes_rev, includes_trimStart, includes_rev, includes_trimStart.
  reflexivity.
Qed.

Lemma includes_nonempty (s : list N) (c : N) :
  includes s c = true -> str_truthy s = true.
Proof. destruct s; [discriminate|reflexivity]. Qed.

Lemma maskKey_has_bullet (key : list N) :
  (8 <= length key)%nat -> includes (maskKey key) bullet = true.
Proof.
  intros H. unfold maskKey.
  destruct key as [|x key]; [simpl in H; lia|].
  cbn [str_truthy negb orb].
  destruct (Nat.ltb_spec (length (x :: key)) 8) as [Hlt|_]; [lia|].
  rewrite !includes_app. cbn [repeat includes existsb].
  rewrite N.eqb_refl. cbn. apply orb_true_r.
Qed.

Lemma key_names_differ : ANTHROPIC_KEY <> OPENAI_KEY.
Proof. intros H. vm_compute in H. discriminate H. Qed.

Lemma saveKeys_anthropic (k : APIKeyManager) :
  sessionStorage (saveKeys k) !! ANTHROPIC_KEY
  = if str_truthy (trim (anthropicInput k))
       && negb (includes (trim (anthropicInput k)) bullet)
    then Some (trim (anthropicInput k))
    else sessionStorage k !! ANTHROPIC_KEY.
Proof.
  unfold saveKeys.
  destruct (str_truthy (trim (anthropicInput k))) eqn:Ea;
    destruct (str_truthy (trim (openaiInput k))) eqn:Eo;
    cbn [negb andb orb];
    destruct (includes (trim (anthropicInput k)) bullet);
    destruct (includes (trim (openaiInput k)) bullet);
    cbn [negb andb sessionStorage set_sessionStorage showStatus keyTimeout
         set_scheduled];
    rewrite ?(lookup_insert_ne _ OPENAI_KEY ANTHROPIC_KEY)
      by (intros H; symmetry in H; exact (key_names_differ H));
    rewrite ?lookup_insert_eq; reflexivity.
Qed.

Lemma saveKeys_openai (k : APIKeyManager) :
  sessionStorage (saveKeys k) !! OPENAI_KEY
  = if str_truthy (trim (openaiInput k))
       && negb (includes (trim (openaiInput k)) bullet)
    then Some (trim (openaiInput k))
    else sessionStorage k !! OPENAI_KEY.
Proof.
  unfold saveKeys.
  destruct (str_truthy (trim (anthropicInput k))) eqn:Ea;
    destruct (str_truthy (trim (openaiInput k))) eqn:Eo;
    cbn [negb andb orb];
    destruct (includes (trim (anthropicInput k)) bullet);
    destruct (includes (trim (openaiInput k)) bullet);
    cbn [negb andb sessionStorage set_sessionStorage showStatus keyTimeout
         set_scheduled];
    rewrite ?lookup_insert_eq;
    rewrite ?(lookup_insert_ne _ ANTHROPIC_KEY OPENAI_KEY)
      by exact key_names_differ;
    reflexivity.
Qed.

Lemma trimmed_is_clean (s : list N) :
  str_truthy (trim s) = true -> includes (trim s) bullet = false ->
  clean_key (trim s).
Proof.
  intros Ht Hi. repeat split; [|apply trim_idempotent|assumption].
  intros E. rewrite E in Ht. discriminate.
Qed.

Lemma saveKeys_clean (k : APIKeyManager) :
  store_clean (sessionStorage k) -> store_clean (sessionStorage (saveKeys k)).
Proof.
  intros H. unfold saveKeys.
  destruct (negb (str_truthy (trim (anthropicInput k)))
            && negb (str_truthy (trim (openaiInput k)))); [exact H|].
  cbn [sessionStorage keyTimeout set_scheduled showStatus].
  assert (H1 : store_clean
                 (sessionStorage
                    (if str_truthy (trim (anthropicInput k))
                        && negb (includes (trim (anthropicInput k)) bullet)
                     then set_sessionStorage
                            (<[ANTHROPIC_KEY := trim (anthropicInput k)]>
                               (sessionStorage k)) k
                     else k))).
  { destruct (str_truthy (trim (anthropicInput k))) eqn:Ea; [|exact H].
    destruct (includes (trim (anthropicInput k)) bullet) eqn:Ei; [exact H|].
    cbn. apply map_Forall_insert_2; [|exact H].
    apply trimmed_is_clean; assumption. }
  set (k1 := if str_truthy (trim (anthropicInput k))
                && negb (includes (trim (anthropicInput k)) bullet)
             then _ else k) in *.
  destruct (str_truthy (trim (openaiInput k))) eqn:Eo; [|exact H1].
  destruct (includes (trim (openaiInput k)) bullet) eqn:Ei; [exact H1|].
  cbn. apply map_Forall_insert_2; [|exact H1].
  apply trimmed_is_clean; assumption.
Qed.

Lemma openModal_store (k : APIKeyManager) :
  sessionStorage (openModal k) = sessionStorage k.
Proof.
  unfold openModal, getAnthropicKey, getOpenAIKey.
  destruct (sessionStorage k !! ANTHROPIC_KEY) as [a|];
    destruct (sessionStorage k !! OPENAI_KEY) as [o|];
    try destruct (str_truthy a); try destruct (str_truthy o); reflexivity.
Qed.

Lemma key_step_clean (k : APIKeyManager) (o : key_op) :
  store_clean (sessionStorage k) -> store_clean (sessionStorage (key_step k o)).
Proof.
  intros H. destruct o as [| |v|v| |confirmed|i]; cbn [key_step];
    try exact H.
  - rewrite openModal_store. exact H.
  - apply saveKeys_clean, H.
  - destruct confirmed; [|exact H]. cbn.
    apply map_Forall_delete, map_Forall_delete, H.
  - destruct (scheduled k !! i) as [[[] delay]|]; try exact H.
    + unfold reload, new_APIKeyManager, checkKeys.
      match goal with |- context [if ?b then _ else _] => destruct b end;
        exact H.
    + unfold reload, new_APIKeyManager, checkKeys.
      match goal with |- context [if ?b then _ else _] => destruct b end;
        exact H.
    + cbn [showStatus sessionStorage]. rewrite openModal_store. exact H.
Qed.

Lemma key_run_clean (ops : list key_op) :
  forall k, store_clean (sessionStorage k) ->
            store_clean (sessionStorage (key_run ops k)).
Proof.
  induction ops as [|o ops IH]; intros k H; [exact H|].
  cbn [key_run fold_left]. apply IH, key_step_clean, H.
Qed.

Lemma openModal_inputs (k : APIKeyManager) :
  (forall key, sessionStorage k !! ANTHROPIC_KEY = Some key ->
     str_truthy key = true -> anthropicInput (openModal k) = maskKey key)
  /\ (forall key, sessionStorage k !! OPENAI_KEY = Some key ->
        str_truthy key = true -> openaiInput (openModal k) = maskKey key).
Proof.
  unfold openModal, getAnthropicKey, getOpenAIKey.
  split; intros key Hk Ht; rewrite Hk, Ht.
  - destruct (sessionStorage k !! OPENAI_KEY) as [o|]; [|reflexivity].
    destruct (str_truthy o); reflexivity.
  - destruct (sessionStorage k !! ANTHROPIC_KEY) as [a|]; [|reflexivity].
    destruct (str_truthy a); reflexivity.
Qed.

Lemma resave_value (key : list N) :
  clean_key key ->
  (if str_truthy (trim (maskKey key))
      && negb (includes (trim (maskKey key)) bullet)
   then Some (trim (maskKey key)) else Some key) = Some key.
Proof.
  intros (Hne & Htrim & Hmask).
  rewrite includes_trim. unfold maskKey at 1 2 3.
  destruct (negb (str_truthy key) || (length key <? 8)%nat) eqn:E.
  - rewrite Htrim, Hmask.
    destruct (str_truthy key); reflexivity.
  - apply orb_false_elim in E as [_ E].
    apply Nat.ltb_ge in E.
    pose proof (maskKey_has_bullet key E) as Hb. unfold maskKey in Hb.
    destruct (negb (str_truthy key) || (length key <? 8)%nat) eqn:E';
      [apply orb_true_iff in E' as [E'|E'];
       [destruct key; [congruence|discriminate]
       |apply Nat.ltb_lt in E'; lia]|].
    rewrite Hb. rewrite andb_false_r. reflexivity.
Qed.

Lemma resave_keeps_keys (k : APIKeyManager) :
  store_clean (sessionStorage k) ->
  forall name key,
    name = ANTHROPIC_KEY \/ name = OPENAI_KEY ->
    sessionStorage k !! name = Some key ->
    sessionStorage (saveKeys (openModal k)) !! name = Some key.
Proof.
  intros Hclean name key Hname Hk.
  pose proof (Hclean name key Hk) as Hkey.
  assert (Ht : str_truthy key = true)
    by (destruct Hkey as (Hne & _); destruct key; [congruence|reflexivity]).
  destruct (openModal_inputs k) as [Ha Ho].
  destruct Hname as [-> | ->].
  - rewrite saveKeys_anthropic, (Ha key Hk Ht), openModal_store, Hk.
    apply resave_value, Hkey.
  - rewrite saveKeys_openai, (Ho key Hk Ht), openModal_store, Hk.
    apply resave_value, Hkey.
Qed.

(** C10. A masked value is never saved. The mask of a key of eight units
    or more contains the mask character; an input that contains the mask
    character leaves its entry of the store as it is; so, starting from a
    store of clean keys (the empty store of a new tab is one), no stored
    key ever contains the mask character, whatever is done with the
    settings form, and opening the form and saving it again leaves each
    stored key as it is. *)
Theorem masked_value_is_never_saved :
  (forall key, (8 <= length key)%nat -> includes (maskKey key) bullet = true)
  /\ (forall k, includes (anthropicInput k) bullet = true ->
        sessionStorage (saveKeys k) !! ANTHROPIC_KEY
        = sessionStorage k !! ANTHROPIC_KEY)
  /\ (forall k, includes (openaiInput k) bullet = true ->
        sessionStorage (saveKeys k) !! OPENAI_KEY
        = sessionStorage k !! OPENAI_KEY)
  /\ store_clean ∅
  /\ (forall store ops name v,
        store_clean store ->
        sessionStorage (key_run ops (new_APIKeyManager store)) !! name = Some v ->
        includes v bullet = false)
  /\ (forall store ops name key,
        store_clean store ->
        name = ANTHROPIC_KEY \/ name = OPENAI_KEY ->
        let k := key_run ops (new_APIKeyManager store) in
        sessionStorage k !! name = Some key ->
        sessionStorage (saveKeys (openModal k)) !! name = Some key).
Proof.
  assert (Hnew : forall store, store_clean store ->
            store_clean (sessionStorage (new_APIKeyManager store))).
  { intros store H. unfold new_APIKeyManager, checkKeys.
    match goal with |- context [if ?b then _ else _] => destruct b end;
      exact H. }
  split; [exact maskKey_has_bullet|].
  split.
  { intros k H. rewrite saveKeys_anthropic, includes_trim, H.
    rewrite andb_false_r. reflexivity. }
  split.
  { intros k H. rewrite saveKeys_openai, includes_trim, H.
    rewrite andb_false_r. reflexivity. }
  split; [apply map_Forall_empty|].
  split.
  - intros store ops name v Hs Hv.
    apply (key_run_clean ops _ (Hnew store Hs) name v Hv).
  - intros store ops name key Hs Hname k Hk.
    apply (resave_keeps_keys k); [|assumption..].
    apply key_run_clean, Hnew, Hs.
Qed.

Lemma masked_value_is_never_saved_witness :
  let k :=
    key_run [TypeAnthropic (js "sk-ant-0123456789");
             TypeOpenAI (js " sk-0123456789 "); SaveKeys]
      (new_APIKeyManager ∅) in
  sessionStorage k !! ANTHROPIC_KEY = Some (js "sk-ant-0123456789")
  /\ includes (anthropicInput (openModal k)) bullet = true
  /\ sessionStorage (saveKeys (openModal k)) !! ANTHROPIC_KEY
     = Some (js "sk-ant-0123456789")
  /\ includes (js "sk-ant-0123456789") bullet = false.
Proof.
  cbv zeta.
  destruct masked_value_is_never_saved as (_ & _ & _ & Hempty & Hfree & Hre).
  split; [vm_compute; reflexivity|].
  split; [vm_compute; reflexivity|].
  split.
  - apply (Hre ∅
             [TypeAnthropic (js "sk-ant-0123456789");
              TypeOpenAI (js " sk-0123456789 "); SaveKeys]
             ANTHROPIC_KEY (js "sk-ant-0123456789") Hempty (or_introl eq_refl)).
    vm_compute. reflexivity.
  - apply (Hfree ∅
             [TypeAnthropic (js "sk-ant-0123456789");
              TypeOpenAI (js " sk-0123456789 "); SaveKeys]
             ANTHROPIC_KEY (js "sk-ant-0123456789") Hempty).
    vm_compute. reflexivity.
Defined.

(** * Further properties of the client *)

(** ** Sending a question *)

Ltac eval_names :=
  repeat match goal with
         | |- context [str_eqb (js ?a) (js ?b)] =>
             let v := eval vm_compute in (str_eqb (js a) (js b)) in
             change (str_eqb (js a) (js b)) with v
         end.

(** X1. A send that passes the checks hands exactly one frame to the
    current socket, with the trimmed input, the session identifier and both
    keys; the question is added to the log, followed by the typing
    indicator; the input is emptied and the button disabled. The state of
    the button beforehand plays no part, so the Enter key sends during a
    pending turn as well. *)
Theorem accepted_send_transmits_one_frame
    (store : gmap (list N) (list N)) (c : ChatManager) (sock : nat)
    (ak ok : list N) :
  isConnected c = true ->
  str_truthy (trim (inputValue c)) = true ->
  store !! ANTHROPIC_KEY = Some ak -> str_truthy ak = true ->
  store !! OPENAI_KEY = Some ok -> str_truthy ok = true ->
  ws c = Some sock ->
  let r := sendMessage store false c in
  fst r = Returned tt
  /\ sent (snd r)
     = sent c ++ [(sock, {| u_message := trim (inputValue c);
                            u_session_id := sessionId c;
                            u_anthropic_key := ak; u_openai_key := ok |})]
  /\ messagesContainer (snd r)
     = remove_first is_welcome (messagesContainer c)
       ++ [MessageDiv user (parseMarkdown (trim (inputValue c)));
           TypingIndicator (js "Thinking...")]
  /\ inputValue (snd r) = []
  /\ sendDisabled (snd r) = true
  /\ isConnected (snd r) = true /\ timers (snd r) = timers c.
Proof.
  intros Hc Hm Ha Hta Ho Hto Hw. unfold sendMessage.
  rewrite Hc, Hm, Ha, Ho, Hta, Hto. cbn [negb orb].
  repeat run_step. unfold ws_send. chat_fields. rewrite Hw.
  unfold addTypingIndicator. repeat run_step. chat_fields.
  rewrite <- app_assoc. repeat split. assumption.
Qed.

Lemma accepted_send_transmits_one_frame_witness :
  let c := set_sendDisabled true
             (set_inputValue (js "  Show projects ") idle_chat) in
  sent (snd (sendMessage both_keys false c))
  = [(0%nat, {| u_message := js "Show projects"; u_session_id := js "s1";
                u_anthropic_key := js "sk-ant-0123456789";
                u_openai_key := js "sk-0123456789" |})].
Proof.
  cbv zeta.
  destruct (accepted_send_transmits_one_frame both_keys
              (set_sendDisabled true
                 (set_inputValue (js "  Show projects ") idle_chat))
              0%nat (js "sk-ant-0123456789") (js "sk-0123456789"))
    as (_ & H & _); [vm_compute; reflexivity..|exact H].
Defined.

(** X2. When the socket refuses the frame, or there is no socket, the
    attempt ends with an error row after the question, the button enabled
    again and nothing recorded as sent; the input has been emptied all the
    same. Each of the two rows takes a welcome block away. *)
Theorem refused_send_shows_an_error
    (store : gmap (list N) (list N)) (c : ChatManager) (send_fails : bool)
    (ak ok : list N) :
  isConnected c = true ->
  str_truthy (trim (inputValue c)) = true ->
  store !! ANTHROPIC_KEY = Some ak -> str_truthy ak = true ->
  store !! OPENAI_KEY = Some ok -> str_truthy ok = true ->
  ws c = None \/ send_fails = true ->
  let r := sendMessage store send_fails c in
  fst r = Returned tt
  /\ sent (snd r) = sent c
  /\ messagesContainer (snd r)
     = remove_first is_welcome
         (remove_first is_welcome (messagesContainer c))
       ++ [MessageDiv user (parseMarkdown (trim (inputValue c)));
           MessageDiv assistant
             (parseMarkdown
                (warning_sign ++ js " " ++ js "Failed to send message."))]
  /\ inputValue (snd r) = []
  /\ sendDisabled (snd r) = false.
Proof.
  intros Hc Hm Ha Hta Ho Hto Hw. unfold sendMessage.
  rewrite Hc, Hm, Ha, Ho, Hta, Hto. cbn [negb orb].
  repeat run_step. unfold ws_send. chat_fields.
  destruct (ws c) as [sock|]; [destruct send_fails|].
  - unfold showError. repeat run_step. chat_fields.
    rewrite remove_first_snoc by reflexivity.
    rewrite <- app_assoc. repeat split.
  - destruct Hw; discriminate.
  - unfold showError. repeat run_step. chat_fields.
    rewrite remove_first_snoc by reflexivity.
    rewrite <- app_assoc. repeat split.
Qed.

Lemma refused_send_shows_an_error_witness :
  let c := set_inputValue (js "Show projects") idle_chat in
  sent (snd (sendMessage both_keys true c)) = []
  /\ sendDisabled (snd (sendMessage both_keys true c)) = false
  /\ inputValue (snd (sendMessage both_keys true c)) = [].
Proof.
  cbv zeta.
  destruct (refused_send_shows_an_error both_keys
              (set_inputValue (js "Show projects") idle_chat) true
              (js "sk-ant-0123456789") (js "sk-0123456789"))
    as (_ & Hs & _ & Hi & Hd);
    [vm_compute; reflexivity..|right; reflexivity|].
  repeat split; assumption.
Defined.

(** ** Frames and the chat log *)

Lemma type_is_named (d : Data) (t name : list N) :
  type d = Some t -> type_is d name = str_eqb t name.
Proof. unfold type_is. intros ->. reflexivity. Qed.

Lemma set_first_status_none (text : list N) (l : list node) :
  existsb is_indicator l = false -> set_first_status text l = l.
Proof.
  induction l as [|n l IH]; [reflexivity|].
  destruct n; cbn; try discriminate; intros H; rewrite IH; auto.
Qed.

Lemma set_first_status_length (text : list N) (l : list node) :
  length (set_first_status text l) = length l.
Proof.
  induction l as [|n l IH]; [reflexivity|].
  destruct n; cbn; try rewrite IH; reflexivity.
Qed.

Lemma set_messagesContainer_same (c : ChatManager) :
  set_messagesContainer (messagesContainer c) c = c.
Proof. destruct c; reflexivity. Qed.

(** X3. A [status] frame writes its text into the first typing indicator
    and does nothing else: the log keeps its length, the controller is not
    called, and without an indicator in the log the whole state is
    unchanged. *)
Theorem status_frame_only_retitles_the_indicator {A}
    (onMessage : option (Data -> A -> A)) (d : Data) (c : ChatManager)
    (a : A) :
  type d = Some (js "status") ->
  let r := handleMessage onMessage d (c, a) in
  fst r = Returned tt
  /\ snd r
     = (set_messagesContainer
          (set_first_status (default [] (message d)) (messagesContainer c)) c,
        a)
  /\ length (messagesContainer (fst (snd r))) = length (messagesContainer c)
  /\ (existsb is_indicator (messagesContainer c) = false -> snd r = (c, a)).
Proof.
  intros Ht. unfold handleMessage.
  rewrite !(type_is_named d _ _ Ht). eval_names. cbv iota.
  unfold in_chat, updateTypingIndicator. rewrite modify_eq. chat_fields.
  repeat split.
  - apply set_first_status_length.
  - intros Hn. rewrite set_first_status_none by assumption.
    rewrite set_messagesContainer_same. reflexivity.
Qed.

Lemma status_frame_only_retitles_the_indicator_witness :
  messagesContainer
    (fst (snd (handleMessage (Some (handleChatMessage no_dates 0))
                 {| type := Some (js "status");
                    message := Some (js "Searching projects...");
                    content := None; done := false; data := NoData;
                    bbox := None |}
                 (awaiting_chat, new_FloodGuardApp))))
  = [MessageDiv user (js "Show me 2025 projects in Pangasinan");
     TypingIndicator (js "Searching projects...")].
Proof.
  destruct (status_frame_only_retitles_the_indicator
              (Some (handleChatMessage no_dates 0))
              {| type := Some (js "status");
                 message := Some (js "Searching projects...");
                 content := None; done := false; data := NoData;
                 bbox := None |}
              awaiting_chat new_FloodGuardApp eq_refl) as (_ & H & _).
  rewrite H. reflexivity.
Defined.

(** X4. The frames that end a turn enable the send button: a [message]
    frame with text and [done], and an [error] frame, each take away the
    first typing indicator, add one assistant row and enable the button; a
    [message] frame without [done] adds its row and leaves the button as it
    is. An [error] frame without [content] prints [undefined]. *)
Theorem terminal_frames_enable_the_button {A}
    (onMessage : option (Data -> A -> A)) (d : Data) (c : ChatManager)
    (a : A) :
  let r := handleMessage onMessage d (c, a) in
  (forall text,
     type d = Some (js "message") -> content d = Some text ->
     fst r = Returned tt
     /\ snd (snd r) = a
     /\ messagesContainer (fst (snd r))
        = cleared (messagesContainer c)
          ++ [MessageDiv assistant (parseMarkdown text)]
     /\ sendDisabled (fst (snd r))
        = if done d then false else sendDisabled c)
  /\ (type d = Some (js "error") ->
      fst r = Returned tt
      /\ snd (snd r) = a
      /\ messagesContainer (fst (snd r))
         = cleared (messagesContainer c)
           ++ [MessageDiv assistant
                 (parseMarkdown
                    (warning_sign ++ js " " ++ to_display (content d)))]
      /\ sendDisabled (fst (snd r)) = false).
Proof.
  cbv zeta. split.
  - intros text Ht Hc. unfold handleMessage.
    rewrite !(type_is_named d _ _ Ht), Hc. eval_names. cbv iota.
    unfold in_chat, removeTypingIndicator. repeat run_step. chat_fields.
    destruct (done d); repeat run_step; chat_fields; repeat split.
  - intros Ht. unfold handleMessage.
    rewrite !(type_is_named d _ _ Ht). eval_names. cbv iota. cbn [orb].
    unfold in_chat, removeTypingIndicator, showError.
    repeat run_step. chat_fields. repeat split.
Qed.

Lemma terminal_frames_enable_the_button_witness :
  sendDisabled
    (fst (snd (handleMessage (Some (handleChatMessage no_dates 0))
                 (fragment (js "Done.") true)
                 (awaiting_chat, new_FloodGuardApp))))
  = false
  /\ sendDisabled
       (fst (snd (handleMessage (Some (handleChatMessage no_dates 0))
                    {| type := Some (js "error"); message := None;
                       content := None; done := false; data := NoData;
                       bbox := None |}
                    (awaiting_chat, new_FloodGuardApp))))
     = false.
Proof.
  split.
  - destruct (terminal_frames_enable_the_button
                (Some (handleChatMessage no_dates 0))
                (fragment (js "Done.") true) awaiting_chat new_FloodGuardApp)
      as [H _].
    destruct (H (js "Done.") eq_refl eq_refl) as (_ & _ & _ & Hd).
    exact Hd.
  - destruct (terminal_frames_enable_the_button
                (Some (handleChatMessage no_dates 0))
                {| type := Some (js "error"); message := None;
                   content := None; done := false; data := NoData;
                   bbox := None |} awaiting_chat new_FloodGuardApp)
      as [_ H].
    destruct (H eq_refl) as (_ & _ & _ & Hd). exact Hd.
Defined.

(** X5. A [message] frame without [content] makes the handler throw
    [TypeError] after the typing indicator and the welcome block have been
    taken away: no row is added and the send button keeps its state, also
    when the frame says [done]. *)
Theorem message_frame_without_content_throws {A}
    (onMessage : option (Data -> A -> A)) (d : Data) (c : ChatManager)
    (a : A) :
  type d = Some (js "message") -> content d = None ->
  handleMessage onMessage d (c, a)
  = (Thrown TypeError,
     (set_messagesContainer (cleared (messagesContainer c)) c, a)).
Proof.
  intros Ht Hc. unfold handleMessage.
  rewrite !(type_is_named d _ _ Ht), Hc. eval_names. cbv iota.
  unfold in_chat, removeTypingIndicator, addMessage. repeat run_step.
  chat_fields. destruct c; reflexivity.
Qed.

Lemma message_frame_without_content_throws_witness :
  let d := {| type := Some (js "message"); message := None; content := None;
              done := true; data := NoData; bbox := None |} in
  fst (handleMessage (Some (handleChatMessage no_dates 0)) d
         (awaiting_chat, new_FloodGuardApp)) = Thrown TypeError
  /\ sendDisabled
       (fst (snd (handleMessage (Some (handleChatMessage no_dates 0)) d
                    (awaiting_chat, new_FloodGuardApp)))) = true.
Proof.
  cbv zeta.
  rewrite (message_frame_without_content_throws
             (Some (handleChatMessage no_dates 0))
             {| type := Some (js "message"); message := None; content := None;
                done := true; data := NoData; bbox := None |}
             awaiting_chat new_FloodGuardApp eq_refl eq_refl).
  split; reflexivity.
Defined.

(** ** Sequences of events *)

Lemma sendMessage_disconnected (store : gmap (list N) (list N))
    (send_fails : bool) (c : ChatManager) :
  isConnected c = false ->
  sendMessage store send_fails c = (Returned tt, c).
Proof.
  intros H. unfold sendMessage. rewrite H.
  rewrite orb_true_r. reflexivity.
Qed.

Lemma step_disconnected {A} (onMessage : option (Data -> A -> A))
    (s : ChatManager * A) (o : op) :
  isConnected (fst s) = false -> o <> SocketOpen ->
  isConnected (fst (step onMessage s o)) = false
  /\ sent (fst (step onMessage s o)) = sent (fst s).
Proof.
  destruct s as [c a]. cbn [fst]. intros Hc Ho. unfold step.
  destruct o as [v|store fails| |f| | |i ct]; cbn [dispatch].
  - split; [exact Hc|reflexivity].
  - unfold in_chat. cbn [fst snd].
    rewrite (sendMessage_disconnected store fails c Hc).
    split; [exact Hc|reflexivity].
  - congruence.
  - destruct f as [text|d]; [split; [exact Hc|reflexivity]|].
    destruct (handleMessage_same_session onMessage d c a)
      as (_ & _ & Hi & _ & Hs & _).
    cbn [ws_onmessage]. rewrite Hi, Hs. split; [exact Hc|reflexivity].
  - unfold in_chat, ws_onerror, showError. cbn [fst snd].
    rewrite addMessage_some. chat_fields. split; [exact Hc|reflexivity].
  - split; reflexivity.
  - cbn [fst].
    destruct (timers c !! i) as [[[] delay]|];
      [|split; [exact Hc|reflexivity]].
    unfold in_chat. cbn [fst snd]. rewrite bind_eq, modify_eq. cbv iota.
    destruct ct.
    + unfold connect. rewrite try_catch_eq. unfold throw, showError.
      cbv iota. rewrite addMessage_some. chat_fields.
      split; [exact Hc|reflexivity].
    + unfold connect. rewrite try_catch_eq, modify_eq. cbv iota. chat_fields.
      split; [exact Hc|reflexivity].
Qed.

(** X6. While the connection is down nothing is transmitted: from a
    disconnected chat, through any events other than the opening of a
    socket (typing, send attempts, frames, errors, closes, reconnect
    timers), the chat stays disconnected and the list of sent frames does
    not grow. A send attempt in that time is dropped without a message. *)
Theorem nothing_is_sent_while_disconnected {A}
    (onMessage : option (Data -> A -> A)) (ops : list op) :
  forall s : ChatManager * A,
    isConnected (fst s) = false -> never_opens ops ->
    isConnected (fst (run onMessage ops s)) = false
    /\ sent (fst (run onMessage ops s)) = sent (fst s).
Proof.
  induction ops as [|o ops IH]; intros s Hc Hn; [split; [exact Hc|reflexivity]|].
  apply Forall_cons_iff in Hn as [Ho Hn].
  change (run onMessage (o :: ops) s)
    with (run onMessage ops (step onMessage s o)).
  destruct (step_disconnected onMessage s o Hc Ho) as [Hc' Hs'].
  destruct (IH _ Hc' Hn) as [H1 H2].
  split; [exact H1|congruence].
Qed.

Lemma nothing_is_sent_while_disconnected_witness :
  sent (fst (run (Some (handleChatMessage no_dates 0))
               [SocketClose; UserTypes (js "Show projects");
                UserSends both_keys false; TimerFires 0 false;
                UserSends both_keys false]
               (idle_chat, new_FloodGuardApp)))
  = [].
Proof.
  change (run (Some (handleChatMessage no_dates 0))
            [SocketClose; UserTypes (js "Show projects");
             UserSends both_keys false; TimerFires 0 false;
             UserSends both_keys false] (idle_chat, new_FloodGuardApp))
    with (run (Some (handleChatMessage no_dates 0))
            [UserTypes (js "Show projects");
             UserSends both_keys false; TimerFires 0 false;
             UserSends both_keys false]
            (step (Some (handleChatMessage no_dates 0))
               (idle_chat, new_FloodGuardApp) SocketClose)).
  apply (nothing_is_sent_while_disconnected
           (Some (handleChatMessage no_dates 0))).
  - reflexivity.
  - repeat constructor; discriminate.
Defined.

Lemma message_rows_app (l1 l2 : list node) :
  message_rows (l1 ++ l2) = message_rows l1 ++ message_rows l2.
Proof. apply List.filter_app. Qed.

Lemma message_rows_remove_first (p : node -> bool) (l : list node) :
  (forall r html, p (MessageDiv r html) = false) ->
  message_rows (remove_first p l) = message_rows l.
Proof.
  intros Hp. induction l as [|n l IH]; [reflexivity|].
  cbn [remove_first]. destruct (p n) eqn:E.
  - destruct n; try reflexivity. rewrite Hp in E. discriminate.
  - unfold message_rows in *. cbn [List.filter]. rewrite IH. reflexivity.
Qed.

Lemma message_rows_set_first_status (text : list N) (l : list node) :
  message_rows (set_first_status text l) = message_rows l.
Proof.
  induction l as [|n l IH]; [reflexivity|].
  destruct n; unfold message_rows in *; cbn; try rewrite IH; reflexivity.
Qed.

Lemma addMessage_rows (r : role) (content : option (list N))
    (c : ChatManager) :
  exists new,
    message_rows (messagesContainer (snd (addMessage r content c)))
    = message_rows (messagesContainer c) ++ new.
Proof.
  destruct content as [text|].
  - rewrite addMessage_some. chat_fields. rewrite message_rows_app.
    rewrite message_rows_remove_first by reflexivity. eauto.
  - unfold addMessage. rewrite bind_eq, modify_eq. cbv iota.
    unfold throw. chat_fields.
    rewrite message_rows_remove_first by reflexivity.
    exists []. rewrite app_nil_r. reflexivity.
Qed.

Lemma sendMessage_rows (store : gmap (list N) (list N)) (send_fails : bool)
    (c : ChatManager) :
  exists new,
    message_rows (messagesContainer (snd (sendMessage store send_fails c)))
    = message_rows (messagesContainer c) ++ new.
Proof.
  assert (Hnone : exists new : list node,
            message_rows (messagesContainer c)
            = message_rows (messagesContainer c) ++ new)
    by (exists []; rewrite app_nil_r; reflexivity).
  unfold sendMessage.
  destruct (negb (str_truthy (trim (inputValue c))) || negb (isConnected c));
    [exact Hnone|].
  destruct (store !! ANTHROPIC_KEY) as [ak|]; [|apply addMessage_rows].
  destruct (store !! OPENAI_KEY) as [ok|]; [|apply addMessage_rows].
  destruct (negb (str_truthy ak) || negb (str_truthy ok));
    [apply addMessage_rows|].
  repeat run_step. unfold ws_send. chat_fields.
  destruct (ws c) as [sock|]; [destruct send_fails|];
    unfold showError, addTypingIndicator; repeat run_step; chat_fields;
    rewrite ?message_rows_app, ?message_rows_remove_first by reflexivity;
    rewrite ?message_rows_app, ?message_rows_remove_first by reflexivity;
    rewrite <- ?app_assoc; eauto.
Qed.

Lemma handleMessage_rows {A} (onMessage : option (Data -> A -> A))
    (d : Data) (c : ChatManager) (a : A) :
  exists new,
    message_rows
      (messagesContainer (fst (snd (handleMessage onMessage d (c, a)))))
    = message_rows (messagesContainer c) ++ new.
Proof.
  assert (Hnone : exists new : list node,
            message_rows (messagesContainer c)
            = message_rows (messagesContainer c) ++ new)
    by (exists []; rewrite app_nil_r; reflexivity).
  unfold handleMessage.
  destruct (type_is d (js "status")).
  { unfold in_chat, updateTypingIndicator. rewrite modify_eq. chat_fields.
    rewrite message_rows_set_first_status. exact Hnone. }
  destruct (type_is d (js "message")).
  { unfold in_chat, removeTypingIndicator. cbn [fst snd].
    rewrite bind_eq, modify_eq. cbv iota.
    destruct (content d) as [text|].
    - repeat run_step.
      destruct (done d); unfold ret; repeat run_step; chat_fields;
        rewrite message_rows_app, !message_rows_remove_first by reflexivity;
        eauto.
    - unfold addMessage, throw. repeat run_step. chat_fields.
      rewrite !message_rows_remove_first by reflexivity. exact Hnone. }
  destruct (type_is d (js "projects") || type_is d (js "map_bounds")
            || type_is d (js "news")).
  { unfold forward. destruct onMessage; exact Hnone. }
  destruct (type_is d (js "error")); [|exact Hnone].
  unfold in_chat, removeTypingIndicator, showError. repeat run_step.
  chat_fields.
  rewrite message_rows_app, !message_rows_remove_first by reflexivity.
  eauto.
Qed.

Lemma step_rows {A} (onMessage : option (Data -> A -> A))
    (s : ChatManager * A) (o : op) :
  exists new,
    message_rows (messagesContainer (fst (step onMessage s o)))
    = message_rows (messagesContainer (fst s)) ++ new.
Proof.
  destruct s as [c a]. cbn [fst].
  assert (Hnone : exists new : list node,
            message_rows (messagesContainer c)
            = message_rows (messagesContainer c) ++ new)
    by (exists []; rewrite app_nil_r; reflexivity).
  unfold step.
  destruct o as [v|store fails| |f| | |i ct]; cbn [dispatch].
  - exact Hnone.
  - unfold in_chat. cbn [fst snd].
    destruct (sendMessage_rows store fails c) as [new H].
    destruct (sendMessage store fails c) as [r c']. exists new. exact H.
  - exact Hnone.
  - destruct f as [text|d]; [exact Hnone|]. apply handleMessage_rows.
  - unfold in_chat, ws_onerror, showError. cbn [fst snd].
    rewrite addMessage_some. chat_fields.
    rewrite message_rows_app, message_rows_remove_first by reflexivity.
    eauto.
  - exact Hnone.
  - cbn [fst]. destruct (timers c !! i) as [[[] delay]|]; [|exact Hnone].
    unfold in_chat. cbn [fst snd]. rewrite bind_eq, modify_eq. cbv iota.
    destruct ct; unfold connect; rewrite try_catch_eq.
    + unfold throw, showError. cbv iota. rewrite addMessage_some.
      chat_fields.
      rewrite message_rows_app, message_rows_remove_first by reflexivity.
      eauto.
    + rewrite modify_eq. cbv iota. chat_fields. exact Hnone.
Qed.

(** X7. The conversation is append-only: whatever happens on the page
    (typing, sends, frames of any kind, socket errors, closes, reconnects),
    the message rows that were in the log are still there, in the same
    order and with the same content, followed by the rows added since. Only
    the welcome block and typing indicators are ever removed or changed. *)
Theorem chat_history_is_append_only {A}
    (onMessage : option (Data -> A -> A)) (ops : list op) :
  forall s : ChatManager * A,
    exists new,
      message_rows (messagesContainer (fst (run onMessage ops s)))
      = message_rows (messagesContainer (fst s)) ++ new.
Proof.
  induction ops as [|o ops IH]; intros s.
  - exists []. rewrite app_nil_r. reflexivity.
  - change (run onMessage (o :: ops) s)
      with (run onMessage ops (step onMessage s o)).
    destruct (IH (step onMessage s o)) as [new2 H2].
    destruct (step_rows onMessage s o) as [new1 H1].
    exists (new1 ++ new2). rewrite H2, H1, app_assoc. reflexivity.
Qed.

(** ** The examples of the welcome block *)

Lemma strip_trailing_quote (body : list N) (x : N) :
  replace_anchored match_outer_quote false 0 (body ++ [x])
  = body ++ (if is_quote x then [] else [x]).
Proof.
  induction body as [|c body IH].
  - cbn. destruct (is_quote x); reflexivity.
  - cbn [app replace_anchored match_outer_quote orb].
    destruct (body ++ [x]) as [|y r] eqn:E.
    { destruct body; discriminate. }
    rewrite andb_false_r. rewrite IH. reflexivity.
Qed.

(** X8. A click on an example of the welcome block sends the text of the
    example without its surrounding quotes: one quote is taken from the
    beginning and one from the end, and quotes inside the text stay. *)
Theorem example_click_strips_outer_quotes
    (store : gmap (list N) (list N)) (send_fails : bool) (c : ChatManager)
    (q1 q2 : N) (body : list N) :
  is_quote q1 = true -> is_quote q2 = true ->
  clickExample (q1 :: body ++ [q2]) store send_fails c
  = sendMessage store send_fails (set_inputValue body c).
Proof.
  intros H1 H2. unfold clickExample. rewrite bind_eq, modify_eq. cbv iota.
  cbn [replace_anchored match_outer_quote orb]. rewrite H1.
  cbn [andb app Nat.pred]. rewrite strip_trailing_quote, H2, app_nil_r.
  reflexivity.
Qed.

Lemma example_click_strips_outer_quotes_witness :
  sent (snd (clickExample (js "'What's near Tarlac City?'")
               both_keys false idle_chat))
  = [(0%nat, {| u_message := js "What's near Tarlac City?";
                u_session_id := js "s1";
                u_anthropic_key := js "sk-ant-0123456789";
                u_openai_key := js "sk-0123456789" |})].
Proof.
  change (js "'What's near Tarlac City?'")
    with (39 :: js "What's near Tarlac City?" ++ [39]).
  rewrite (example_click_strips_outer_quotes both_keys false idle_chat
             39 39 (js "What's near Tarlac City?") eq_refl eq_refl).
  vm_compute. reflexivity.
Defined.

(** ** More on the formatter *)

Lemma replace_from_untouched (m : matcher) (c : N) (s : list N) :
  (forall x r, x <> c -> m (x :: r) = None) ->
  Forall (fun x => x <> c) s -> replace_from m 0 s = s.
Proof.
  intros Hm. induction 1 as [|x r Hx _ IH]; [reflexivity|].
  cbn [replace_from]. rewrite (Hm x r Hx), IH. reflexivity.
Qed.

Lemma match_unit_head (c : N) (out : list N) :
  forall x r, x <> c -> match_unit c out (x :: r) = None.
Proof.
  intros x r Hx. unfold match_unit.
  destruct (N.eqb_spec x c); [contradiction|reflexivity].
Qed.

Lemma match_bold_head :
  forall x r, x <> star -> match_bold (x :: r) = None.
Proof.
  intros x r Hx. unfold match_bold. destruct r as [|c2 r]; [reflexivity|].
  destruct (N.eqb_spec x star); [contradiction|reflexivity].
Qed.

Lemma match_italic_head :
  forall x r, x <> star -> match_italic (x :: r) = None.
Proof.
  intros x r Hx. unfold match_italic.
  destruct (N.eqb_spec x star); [contradiction|reflexivity].
Qed.

Lemma escapeHtml_untouched (s : list N) :
  Forall (fun c => c <> amp /\ c <> lt /\ c <> gt) s -> escapeHtml s = s.
Proof.
  intros H. unfold escapeHtml, replace_all.
  rewrite (replace_from_untouched _ amp s (match_unit_head amp _))
    by (eapply Forall_impl; [exact H|]; intros x Hx; apply Hx).
  rewrite (replace_from_untouched _ lt s (match_unit_head lt _))
    by (eapply Forall_impl; [exact H|]; intros x Hx; apply Hx).
  apply (replace_from_untouched _ gt s (match_unit_head gt _)).
  eapply Forall_impl; [exact H|]. intros x Hx; apply Hx.
Qed.

Lemma star_free_passes (s : list N) :
  Forall (fun c => c <> star /\ c <> newline) s ->
  replace_all (match_unit newline (js "<br>"))
    (replace_all match_italic (replace_all match_bold s)) = s.
Proof.
  intros H. unfold replace_all.
  rewrite (replace_from_untouched _ star s match_bold_head)
    by (eapply Forall_impl; [exact H|]; intros x Hx; apply Hx).
  rewrite (replace_from_untouched _ star s match_italic_head)
    by (eapply Forall_impl; [exact H|]; intros x Hx; apply Hx).
  apply (replace_from_untouched _ newline s (match_unit_head newline _)).
  eapply Forall_impl; [exact H|]. intros x Hx; apply Hx.
Qed.

(** X9. Text without an ampersand, an angle bracket, a star or a line
    break comes out of the formatter as it went in. *)
Theorem plain_text_is_left_alone (text : list N) :
  plain_text text -> parseMarkdown text = text.
Proof.
  intros H. unfold parseMarkdown. cbv zeta.
  rewrite escapeHtml_untouched
    by (eapply Forall_impl; [exact H|];
        intros x (Ha & Hl & Hg & Hs & Hn); auto).
  apply star_free_passes.
  eapply Forall_impl; [exact H|].
  intros x (Ha & Hl & Hg & Hs & Hn); auto.
Qed.

Lemma plain_text_is_left_alone_witness :
  parseMarkdown (js "I found 12 flood control projects.")
  = js "I found 12 flood control projects.".
Proof.
  apply plain_text_is_left_alone.
  unfold plain_text. vm_compute.
  repeat (constructor; [repeat split; discriminate|]). constructor.
Defined.

(** X10. Escaping works unit by unit: the ampersand, the two angle
    brackets are replaced by their entities and every other unit is kept,
    so that the three replacements in a row do not escape each other's
    output. *)
Theorem escapeHtml_is_unitwise (text : list N) :
  escapeHtml text = flat_map entity text.
Proof.
  unfold escapeHtml. rewrite !replace_unit_flat_map.
  induction text as [|c text IH]; [reflexivity|].
  cbn [flat_map]. rewrite !flat_map_app, IH. f_equal.
  unfold entity.
  destruct (N.eqb_spec c amp) as [->|Ha]; [reflexivity|].
  cbn [flat_map app].
  destruct (N.eqb_spec c lt) as [->|Hl]; [reflexivity|].
  cbn [flat_map app].
  destruct (N.eqb_spec c gt) as [->|Hg]; reflexivity.
Qed.

Lemma span_nostar_run (x r : list N) :
  Forall (fun c => c <> star) x ->
  span_nostar (x ++ star :: r) = (x, star :: r).
Proof.
  induction 1 as [|c x Hc _ IH]; [reflexivity|].
  cbn [app span_nostar].
  destruct (N.eqb_spec c star); [contradiction|]. rewrite IH. reflexivity.
Qed.

Lemma span_nostar_open (x : list N) :
  Forall (fun c => c <> star) x -> span_nostar x = (x, []).
Proof.
  induction 1 as [|c x Hc _ IH]; [reflexivity|].
  cbn [span_nostar].
  destruct (N.eqb_spec c star); [contradiction|]. rewrite IH. reflexivity.
Qed.

Lemma bold_passes_single_star (x : list N) :
  Forall (fun c => c <> star) x ->
  replace_from match_bold 0 (x ++ [star]) = x ++ [star].
Proof.
  induction 1 as [|c x Hc _ IH]; [reflexivity|].
  cbn [app replace_from]. rewrite (match_bold_head c _ Hc), IH. reflexivity.
Qed.

Lemma plain_text_parts (x : list N) :
  plain_text x ->
  Forall (fun c => c <> amp /\ c <> lt /\ c <> gt) x
  /\ Forall (fun c => c <> star) x
  /\ Forall (fun c => c <> newline) x.
Proof.
  intros H. repeat split; (eapply Forall_impl; [exact H|]);
    intros c (Ha & Hl & Hg & Hs & Hn); auto.
Qed.

Lemma replace_from_match (m : matcher) (c : N) (r out : list N) (len : nat) :
  m (c :: r) = Some (out, S len) ->
  replace_from m 0 (c :: r) = out ++ replace_from m 0 (skipn len r).
Proof.
  intros H. cbn [replace_from]. rewrite H. cbn [Nat.pred].
  rewrite replace_from_skipn. reflexivity.
Qed.

Lemma replace_from_nomatch (m : matcher) (c : N) (r : list N) :
  m (c :: r) = None ->
  replace_from m 0 (c :: r) = c :: replace_from m 0 r.
Proof. intros H. cbn [replace_from]. rewrite H. reflexivity. Qed.

Lemma match_bold_run (x r : list N) :
  Forall (fun c => c <> star) x -> x <> [] ->
  match_bold (star :: star :: x ++ star :: star :: r)
  = Some (js "<strong>" ++ x ++ js "</strong>", S (3 + length x)).
Proof.
  intros Hs Hne. unfold match_bold. rewrite !N.eqb_refl. cbn [andb].
  rewrite (span_nostar_run x (star :: r) Hs).
  destruct x as [|y x]; [congruence|].
  rewrite !N.eqb_refl. reflexivity.
Qed.

Lemma match_italic_run (x r : list N) :
  Forall (fun c => c <> star) x -> x <> [] ->
  match_italic (star :: x ++ star :: r)
  = Some (js "<em>" ++ x ++ js "</em>", S (1 + length x)).
Proof.
  intros Hs Hne. unfold match_italic. rewrite !N.eqb_refl.
  rewrite (span_nostar_run x r Hs).
  destruct x as [|y x]; [congruence|].
  rewrite !N.eqb_refl. reflexivity.
Qed.

Lemma match_italic_open (x : list N) :
  Forall (fun c => c <> star) x -> match_italic (star :: x) = None.
Proof.
  intros Hs. unfold match_italic. rewrite N.eqb_refl.
  rewrite (span_nostar_open x Hs). destruct x; reflexivity.
Qed.

Lemma match_bold_single (y : N) (r : list N) :
  y <> star -> match_bold (star :: y :: r) = None.
Proof.
  intros Hy. unfold match_bold.
  destruct (N.eqb_spec y star); [contradiction|].
  rewrite andb_false_r. reflexivity.
Qed.

Lemma tags_pass_linebreaks (a x b : list N) :
  Forall (fun c => c <> newline) a -> Forall (fun c => c <> newline) x ->
  Forall (fun c => c <> newline) b ->
  replace_from (match_unit newline (js "<br>")) 0 (a ++ x ++ b)
  = a ++ x ++ b.
Proof.
  intros Ha Hx Hb.
  apply (replace_from_untouched _ newline _ (match_unit_head newline _)).
  rewrite !Forall_app. auto.
Qed.

Lemma count_unit_app (c : N) (a b : list N) :
  count_unit c (a ++ b) = (count_unit c a + count_unit c b)%nat.
Proof.
  induction a as [|x a IH]; [reflexivity|].
  cbn [app count_unit]. rewrite IH. lia.
Qed.

Lemma span_safe_app (a b : list N) :
  span_safe a -> span_safe b -> span_safe (a ++ b).
Proof.
  induction 1 as [|c r Hl Hg _ IH|t r Ht _ IH]; intros Hb; simpl.
  - assumption.
  - constructor; auto.
  - rewrite <- app_assoc. constructor; auto.
Qed.

Lemma span_safe_plain (s : list N) :
  Forall (fun c => c <> lt /\ c <> gt) s -> span_safe s.
Proof.
  induction 1 as [|c r [Hl Hg] _ IH]; constructor; assumption.
Qed.

Lemma span_tag_facts (t : list N) :
  In t span_tags ->
  Forall (fun c => c <> star) t /\ count_unit newline t = 0%nat
  /\ t <> []
  /\ (forall r, replace_from match_italic 0 (t ++ r)
                = t ++ replace_from match_italic 0 r)
  /\ (forall r,
        flat_map (fun x => if x =? newline then js "<br>" else [x]) (t ++ r)
        = t ++ flat_map (fun x => if x =? newline then js "<br>" else [x]) r)
  /\ (forall r, occurrences (js "<br>") (t ++ r) = occurrences (js "<br>") r)
  /\ (forall r, includes (t ++ r) newline = includes r newline).
Proof.
  unfold span_tags; simpl.
  intros [<-|[<-|[<-|[<-|[]]]]];
    (split; [repeat constructor; unfold star; discriminate|]);
    (split; [reflexivity|]); (split; [discriminate|]);
    repeat split; intros r; reflexivity.
Qed.

Lemma span_safe_split_star (s : list N) :
  span_safe s ->
  forall a b, s = a ++ star :: b -> span_safe a /\ span_safe b.
Proof.
  induction 1 as [|c r Hl Hg Hr IH|t r Ht Hr IH]; intros a b E.
  - destruct a; discriminate.
  - destruct a as [|y a]; simpl in E; inversion E; subst.
    + split; [constructor|assumption].
    + destruct (IH a b eq_refl) as [Ha Hb].
      split; [constructor|]; assumption.
  - symmetry in E.
    destruct (span_tag_facts t Ht) as (Hstar & _).
    destruct (star_free_prefix t Hstar a b r E) as [a' [-> ->]].
    destruct (IH a' b eq_refl) as [Ha Hb].
    split; [constructor|]; assumption.
Qed.

Lemma escape_keeps_line_breaks (text : list N) :
  count_unit newline (escapeHtml text) = count_unit newline text.
Proof.
  rewrite escapeHtml_entities.
  induction text as [|c text IH]; [reflexivity|].
  cbn [flat_map count_unit]. rewrite count_unit_app, IH. f_equal.
  unfold entity.
  destruct (N.eqb_spec c amp) as [->|Ha]; [reflexivity|].
  destruct (N.eqb_spec c lt) as [->|Hl]; [reflexivity|].
  destruct (N.eqb_spec c gt) as [->|Hg]; [reflexivity|].
  cbn [count_unit]. lia.
Qed.

Lemma bold_keeps_line_breaks (n : nat) :
  forall s, (length s <= n)%nat -> Forall (fun c => c <> lt /\ c <> gt) s ->
    span_safe (replace_from match_bold 0 s)
    /\ count_unit newline (replace_from match_bold 0 s)
       = count_unit newline s.
Proof.
  induction n as [|n IH]; intros s Hlen Hs.
  { destruct s; [split; [constructor|reflexivity]|simpl in Hlen; lia]. }
  destruct s as [|c rest]; [split; [constructor|reflexivity]|].
  assert (Hrest : Forall (fun c => c <> lt /\ c <> gt) rest)
    by (inversion Hs; assumption).
  assert (Hc : c <> lt /\ c <> gt) by (inversion Hs; assumption).
  destruct (match_bold (c :: rest)) as [[out len]|] eqn:E.
  - destruct (match_bold_spec _ _ _ E) as (g & tl & Hne & Hshape & -> & ->).
    injection Hshape as -> ->.
    change (4 + length g)%nat with (S (3 + length g)) in E.
    rewrite (replace_from_match _ _ _ _ _ E).
    replace (skipn (3 + length g) (star :: g ++ star :: star :: tl)) with tl.
    2:{ cbn [Nat.add skipn].
        replace (S (S (length g))) with (length g + 2)%nat by lia.
        rewrite skipn_past. reflexivity. }
    apply Forall_cons_iff in Hrest as [_ Hr].
    apply Forall_app in Hr as [Hg Htl].
    apply Forall_cons_iff in Htl as [_ Htl].
    apply Forall_cons_iff in Htl as [_ Htl].
    destruct (IH tl) as [IH1 IH2]; [|assumption|].
    { simpl in Hlen. rewrite length_app in Hlen. simpl in Hlen. lia. }
    split.
    + rewrite <- !app_assoc.
      apply span_tag; [simpl; auto|].
      apply span_safe_app; [apply span_safe_plain; assumption|].
      apply span_tag; [simpl; auto|]. exact IH1.
    + rewrite !count_unit_app, IH2.
      change (star :: star :: g ++ star :: star :: tl)
        with ([star; star] ++ g ++ [star; star] ++ tl).
      rewrite !count_unit_app.
      change (count_unit newline [star; star]) with 0%nat.
      change (count_unit newline (js "<strong>")) with 0%nat.
      change (count_unit newline (js "</strong>")) with 0%nat.
      lia.
  - rewrite (replace_from_nomatch _ _ _ E).
    destruct (IH rest) as [IH1 IH2]; [simpl in Hlen; lia|assumption|].
    split; [constructor; tauto|].
    cbn [count_unit]. rewrite IH2. reflexivity.
Qed.

Lemma italic_keeps_line_breaks (n : nat) :
  forall s, (length s <= n)%nat -> span_safe s ->
    span_safe (replace_from match_italic 0 s)
    /\ count_unit newline (replace_from match_italic 0 s)
       = count_unit newline s.
Proof.
  induction n as [|n IH]; intros s Hlen Hs.
  { destruct s; [split; [constructor|reflexivity]|simpl in Hlen; lia]. }
  destruct Hs as [|c rest Hl Hg Hrest|t r Ht Hr].
  - split; [constructor|reflexivity].
  - destruct (match_italic (c :: rest)) as [[out len]|] eqn:E.
    + destruct (match_italic_spec _ _ _ E)
        as (g & tl & Hne & Hstar & Hshape & -> & ->).
      injection Hshape as -> ->.
      change (2 + length g)%nat with (S (1 + length g)) in E.
      rewrite (replace_from_match _ _ _ _ _ E).
      replace (skipn (1 + length g) (g ++ star :: tl)) with tl.
      2:{ replace (1 + length g)%nat with (length g + 1)%nat by lia.
          rewrite skipn_past. reflexivity. }
      destruct (span_safe_split_star _ Hrest g tl eq_refl) as [Hsg Hstl].
      destruct (IH tl) as [IH1 IH2]; [|assumption|].
      { simpl in Hlen. rewrite length_app in Hlen. simpl in Hlen. lia. }
      split.
      * rewrite <- !app_assoc.
        apply span_tag; [simpl; auto|].
        apply span_safe_app; [assumption|].
        apply span_tag; [simpl; auto 6|]. exact IH1.
      * rewrite !count_unit_app, IH2.
        change (star :: g ++ star :: tl) with ([star] ++ g ++ [star] ++ tl).
        rewrite !count_unit_app.
        change (count_unit newline [star]) with 0%nat.
        change (count_unit newline (js "<em>")) with 0%nat.
        change (count_unit newline (js "</em>")) with 0%nat.
        lia.
    + rewrite (replace_from_nomatch _ _ _ E).
      destruct (IH rest) as [IH1 IH2]; [simpl in Hlen; lia|assumption|].
      split; [constructor; assumption|].
      cbn [count_unit]. rewrite IH2. reflexivity.
  - destruct (span_tag_facts t Ht) as (_ & Hcount & Hnil & Hpass & _).
    rewrite Hpass.
    destruct (IH r) as [IH1 IH2]; [|assumption|].
    { rewrite length_app in Hlen. destruct t; [congruence|].
      simpl in Hlen. lia. }
    split; [apply span_tag; assumption|].
    rewrite !count_unit_app, IH2. reflexivity.
Qed.

Lemma line_breaks_become_tags (s : list N) :
  span_safe s ->
  occurrences (js "<br>")
    (flat_map (fun x => if x =? newline then js "<br>" else [x]) s)
  = count_unit newline s
  /\ includes
       (flat_map (fun x => if x =? newline then js "<br>" else [x]) s)
       newline = false.
Proof.
  induction 1 as [|c r Hl Hg _ [IH1 IH2]|t r Ht _ [IH1 IH2]].
  - split; reflexivity.
  - cbn [flat_map count_unit].
    destruct (N.eqb_spec c newline) as [->|Hn].
    + split.
      * change (js "<br>" ++ ?x) with (60 :: 98 :: 114 :: 62 :: x).
        change (js "<br>") with [60; 98; 114; 62].
        cbn [occurrences is_prefix N.eqb Pos.eqb andb Nat.add].
        change [60; 98; 114; 62] with (js "<br>"). rewrite IH1. reflexivity.
      * rewrite includes_app, IH2. reflexivity.
    + split.
      * cbn [app occurrences].
        replace (is_prefix (js "<br>") (c :: _)) with false.
        2:{ change (js "<br>") with [60; 98; 114; 62]. cbn [is_prefix].
            destruct (N.eqb_spec 60 c) as [<-|]; [|reflexivity].
            exfalso. apply Hl. reflexivity. }
        rewrite IH1. reflexivity.
      * cbn [app]. unfold includes in *. cbn [existsb]. rewrite IH2.
        rewrite orb_false_r. apply N.eqb_neq. congruence.
  - destruct (span_tag_facts t Ht) as (_ & Hcount & _ & _ & Hmap & Hocc & Hinc).
    rewrite Hmap, Hocc, Hinc, count_unit_app, Hcount. split; assumption.
Qed.

(** X11. No line break is left in the output: each one has become a
    [<br>]. The output holds no line break, and it holds as many [<br>] as
    the input holds line breaks. *)
Theorem no_line_break_survives (text : list N) :
  includes (parseMarkdown text) newline = false
  /\ occurrences (js "<br>") (parseMarkdown text) = count_unit newline text.
Proof.
  unfold parseMarkdown. cbv zeta. rewrite replace_unit_flat_map.
  destruct (bold_keeps_line_breaks _ (escapeHtml text) (le_n _)
              (escapeHtml_plain text)) as [Hb1 Hb2].
  destruct (italic_keeps_line_breaks _ _ (le_n _) Hb1) as [Hi1 Hi2].
  destruct (line_breaks_become_tags _ Hi1) as [Ho Hn].
  unfold replace_all. split; [exact Hn|].
  rewrite Ho, Hi2, Hb2. apply escape_keeps_line_breaks.
Qed.

(** X12. Emphasis. A plain, non-empty text between two pairs of stars
    comes out in one [strong] element, between two single stars in one [em]
    element, in both cases without the stars; a single star in front of a
    plain text, with nothing to close it, stays a star. *)
Theorem emphasis_spans_are_wrapped (x : list N) :
  plain_text x -> x <> [] ->
  parseMarkdown (js "**" ++ x ++ js "**") = js "<strong>" ++ x ++ js "</strong>"
  /\ parseMarkdown (js "*" ++ x ++ js "*") = js "<em>" ++ x ++ js "</em>"
  /\ parseMarkdown (js "*" ++ x) = js "*" ++ x.
Proof.
  intros Hp Hne. destruct (plain_text_parts x Hp) as (He & Hs & Hn).
  assert (Hesc : forall a b : list N,
            Forall (fun c => c <> amp /\ c <> lt /\ c <> gt) a ->
            Forall (fun c => c <> amp /\ c <> lt /\ c <> gt) b ->
            escapeHtml (a ++ x ++ b) = a ++ x ++ b).
  { intros a b Ha Hb. apply escapeHtml_untouched.
    rewrite !Forall_app. auto. }
  destruct x as [|y x']; [congruence|]. set (x := y :: x') in *.
  assert (Hy : y <> star) by (inversion Hs; assumption).
  split; [|split]; unfold parseMarkdown; cbv zeta.
  - rewrite Hesc by (repeat constructor; discriminate).
    unfold replace_all.
    change (js "**" ++ x ++ js "**")
      with (star :: star :: x ++ star :: star :: []).
    rewrite (replace_from_match _ _ _ _ _ (match_bold_run x [] Hs Hne)).
    replace (skipn (3 + length x) (star :: x ++ [star; star]))
      with (@nil N).
    2:{ cbn [Nat.add skipn].
        replace (S (S (length x))) with (length x + 2)%nat by lia.
        rewrite skipn_past. reflexivity. }
    cbn [replace_from]. rewrite app_nil_r.
    rewrite (replace_from_untouched _ star _ match_italic_head)
      by (rewrite !Forall_app; repeat split;
          [repeat constructor; discriminate|exact Hs
          |repeat constructor; discriminate]).
    apply tags_pass_linebreaks;
      [repeat constructor; discriminate|exact Hn
      |repeat constructor; discriminate].
  - rewrite Hesc by (repeat constructor; discriminate).
    unfold replace_all.
    change (js "*" ++ x ++ js "*") with (star :: y :: x' ++ [star]).
    rewrite (replace_from_nomatch _ _ _ (match_bold_single y _ Hy)).
    change (y :: x' ++ [star]) with (x ++ [star]).
    rewrite (bold_passes_single_star x Hs).
    rewrite (replace_from_match _ _ _ _ _ (match_italic_run x [] Hs Hne)).
    replace (skipn (1 + length x) (x ++ [star])) with (@nil N).
    2:{ replace (1 + length x)%nat with (length x + 1)%nat by lia.
        rewrite skipn_past. reflexivity. }
    cbn [replace_from]. rewrite app_nil_r.
    apply tags_pass_linebreaks;
      [repeat constructor; discriminate|exact Hn
      |repeat constructor; discriminate].
  - change (js "*" ++ x) with (star :: y :: x').
    rewrite escapeHtml_untouched
      by (constructor; [repeat split; discriminate|exact He]).
    unfold replace_all.
    rewrite (replace_from_nomatch _ _ _ (match_bold_single y _ Hy)).
    change (y :: x') with x.
    rewrite (replace_from_untouched _ star x match_bold_head Hs).
    rewrite (replace_from_nomatch _ _ _ (match_italic_open x Hs)).
    rewrite (replace_from_untouched _ star x match_italic_head Hs).
    apply (replace_from_untouched _ newline _ (match_unit_head newline _)).
    constructor; [discriminate|exact Hn].
Qed.

Lemma emphasis_spans_are_wrapped_witness :
  parseMarkdown (js "**GED Construction**")
  = js "<strong>GED Construction</strong>"
  /\ parseMarkdown (js "*ongoing*") = js "<em>ongoing</em>".
Proof.
  split.
  - apply (emphasis_spans_are_wrapped (js "GED Construction")).
    + unfold plain_text. vm_compute.
      repeat (constructor; [repeat split; discriminate|]). constructor.
    + discriminate.
  - apply (emphasis_spans_are_wrapped (js "ongoing")).
    + unfold plain_text. vm_compute.
      repeat (constructor; [repeat split; discriminate|]). constructor.
    + discriminate.
Defined.

(** ** The map and the panels *)

Lemma fitBounds_keeps_markers (b : option (list (float * float)))
    (m : MapController) :
  markers (fitBounds b m) = markers m /\ layers (fitBounds b m) = layers m
  /\ projectCount (fitBounds b m) = projectCount m
  /\ totalBudget (fitBounds b m) = totalBudget m.
Proof.
  destruct b as [[|c0 [|c1 [|c2 b]]]|]; repeat split.
Qed.

Lemma handleChatMessage_markers (Date_parse : list N -> option Z) (now : Z)
    (d : Data) (a : FloodGuardApp) :
  markers_in_step a ->
  markers_in_step (handleChatMessage Date_parse now d a).
Proof.
  intros [Hm Hl]. unfold handleChatMessage.
  destruct (type_is d (js "projects")) eqn:Ep.
  - cbn [currentProjects set_currentProjects set_map map].
    set (ps := data_projects (data d)).
    destruct (updateProjects_markers ps (clearMarkers (map a)))
      as (Hm' & Hl' & _).
    destruct ps as [|first rest] eqn:E.
    + split; reflexivity.
    + destruct (fitBounds_keeps_markers
                  (Some (calculateBounds (first :: rest)))
                  (updateProjects (first :: rest) (clearMarkers (map a))))
        as (Hfm & Hfl & _).
      unfold markers_in_step.
      cbn [currentProjects set_currentProjects set_map set_projectRenderer
           map].
      rewrite Hfm, Hfl, Hm', Hl'. split; reflexivity.
  - destruct (type_is d (js "map_bounds")).
    + destruct (bbox d) as [b|]; [|split; assumption].
      destruct (fitBounds_keeps_markers (Some b) (map a)) as (Hfm & Hfl & _).
      unfold markers_in_step. cbn [currentProjects set_map map].
      rewrite Hfm, Hfl. split; assumption.
    + destruct (type_is d (js "news")); [|split; assumption].
      destruct (data_articles (data d)); split; assumption.
Qed.

Lemma in_chat_controller {A X} (m : M ChatManager X) (c : ChatManager)
    (a : A) :
  snd (snd (in_chat m (c, a))) = a.
Proof. unfold in_chat. cbn [fst snd]. destruct (m c). reflexivity. Qed.

Lemma handleMessage_controller {A} (f : Data -> A -> A) (d : Data)
    (c : ChatManager) (a : A) :
  snd (snd (handleMessage (Some f) d (c, a))) = a
  \/ snd (snd (handleMessage (Some f) d (c, a))) = f d a.
Proof.
  unfold handleMessage.
  destruct (type_is d (js "status")); [left; apply in_chat_controller|].
  destruct (type_is d (js "message")); [left; apply in_chat_controller|].
  destruct (type_is d (js "projects") || type_is d (js "map_bounds")
            || type_is d (js "news")); [right; reflexivity|].
  destruct (type_is d (js "error")); left;
    [apply in_chat_controller|reflexivity].
Qed.

Lemma step_controller {A} (f : Data -> A -> A) (s : ChatManager * A)
    (o : op) :
  snd (step (Some f) s o) = snd s
  \/ exists d, snd (step (Some f) s o) = f d (snd s).
Proof.
  destruct s as [c a]. unfold step.
  destruct o as [v|store fails| |fr| | |i ct]; cbn [dispatch snd];
    try (left; apply in_chat_controller).
  - destruct fr as [text|d]; [left; reflexivity|].
    cbn [ws_onmessage].
    destruct (handleMessage_controller f d c a) as [H|H];
      [left|right; exists d]; exact H.
  - cbn [fst]. destruct (timers c !! i) as [[[] delay]|]; [|left; reflexivity].
    left. apply in_chat_controller.
Qed.

(** X13. The map shows the current projects, and nothing else: before the
    first answer it is empty like [currentProjects], and every event of the
    page (frames, sends, socket events, marker clicks, news answers) keeps
    the markers equal to those of [currentProjects], in the array and in
    the cluster group alike. *)
Theorem markers_follow_current_projects (Date_parse : list N -> option Z) :
  markers_in_step new_FloodGuardApp
  /\ (forall s e,
        markers_in_step (snd s) ->
        markers_in_step (snd (client_step Date_parse s e)))
  /\ (forall es c,
        markers_in_step
          (snd (client_run Date_parse es (c, new_FloodGuardApp)))).
Proof.
  assert (Hstep : forall s e,
            markers_in_step (snd s) ->
            markers_in_step (snd (client_step Date_parse s e))).
  { intros s e H. destruct e as [o now|p w now|arts]; cbn [client_step snd].
    - destruct (step_controller (handleChatMessage Date_parse now) s o)
        as [->|[d ->]]; [exact H|].
      apply handleChatMessage_markers, H.
    - unfold handleProjectClick.
      destruct (w <=? 1024); exact H.
    - exact H. }
  split; [split; reflexivity|]. split; [exact Hstep|].
  intros es c.
  assert (Hrun : forall s, markers_in_step (snd s) ->
            markers_in_step (snd (client_run Date_parse es s))).
  { induction es as [|e es IH]; intros s H; [exact H|].
    change (client_run Date_parse (e :: es) s)
      with (client_run Date_parse es (client_step Date_parse s e)).
    apply IH, Hstep, H. }
  apply Hrun. split; reflexivity.
Qed.

Lemma markers_follow_current_projects_witness :
  markers_in_step
    (snd (client_step no_dates (idle_chat, new_FloodGuardApp)
            (Chat (SocketMessage
                     (Decoded (projects_frame
                                 [project_at 14.5 121; project_at 0 0]))) 0))).
Proof.
  apply (markers_follow_current_projects no_dates).
  split; reflexivity.
Defined.

Lemma calculateBounds_two_corners (ps : list Project) :
  exists c0 c1, calculateBounds ps = [c0; c1].
Proof.
  rewrite calculateBounds_bounds_of. unfold bounds_of, default_bounds.
  destruct (project_lats ps), (project_lons ps); eauto.
Qed.

(** X14. A [projects] frame with a non-empty set always moves the map: the
    box it computes has two corners, so the view is fitted to it, with
    latitude and longitude swapped into the order of the map. When no
    project of the set has a truthy latitude, or none has a truthy
    longitude, the view is the default region, latitude 12 to 13 and
    longitude 121 to 122. *)
Theorem projects_frame_always_fits_the_map
    (Date_parse : list N -> option Z) (now : Z) (d : Data)
    (a : FloodGuardApp) :
  type d = Some (js "projects") -> data_projects (data d) <> [] ->
  let ps := data_projects (data d) in
  let a' := handleChatMessage Date_parse now d a in
  (exists c0 c1,
     calculateBounds ps = [c0; c1]
     /\ view (map a') = FitBounds (snd c0, fst c0) (snd c1, fst c1))
  /\ (project_lats ps = [] \/ project_lons ps = [] ->
      view (map a') = FitBounds (12, 121)%float (13, 122)%float).
Proof.
  intros Ht Hne. cbv zeta.
  remember (data_projects (data d)) as ps eqn:Eps.
  assert (Hview : forall c0 c1, calculateBounds ps = [c0; c1] ->
            view (map (handleChatMessage Date_parse now d a))
            = FitBounds (snd c0, fst c0) (snd c1, fst c1)).
  { intros c0 c1 Hb. unfold handleChatMessage.
    rewrite (type_is_named d _ _ Ht). eval_names. cbv iota.
    cbn [currentProjects set_currentProjects set_map map]. rewrite <- Eps.
    destruct ps as [|first rest]; [congruence|].
    rewrite Hb. reflexivity. }
  split.
  - destruct (calculateBounds_two_corners ps) as (c0 & c1 & Hb).
    exists c0, c1. split; [exact Hb|apply Hview, Hb].
  - intros Hnone.
    apply (Hview (121, 12)%float (122, 13)%float).
    rewrite calculateBounds_bounds_of. unfold bounds_of.
    destruct Hnone as [-> | ->]; [reflexivity|].
    destruct (project_lats ps); reflexivity.
Qed.

Lemma projects_frame_always_fits_the_map_witness :
  view (map (handleChatMessage no_dates 0 (projects_frame [no_project])
               new_FloodGuardApp))
  = FitBounds (12, 121)%float (13, 122)%float.
Proof.
  apply (projects_frame_always_fits_the_map no_dates 0
           (projects_frame [no_project]) new_FloodGuardApp eq_refl).
  - discriminate.
  - left. reflexivity.
Defined.

Lemma markers_of_length (ps : list Project) :
  (length (markers_of ps) <= length ps)%nat.
Proof.
  induction ps as [|p ps IH]; [reflexivity|].
  unfold markers_of in *. cbn [flat_map length].
  rewrite length_app. destruct (project_marker p); cbn [length]; lia.
Qed.

(** X15. The counter counts projects, not markers. After a [projects]
    frame with a non-empty set the project count is the size of the set,
    with or without coordinates, and the markers are at most as many. After
    a [projects] frame with an empty or missing set the markers are gone
    but the count and the budget on the page stay what they were. *)
Theorem project_count_is_the_size_of_the_set
    (Date_parse : list N -> option Z) (now : Z) (d : Data)
    (a : FloodGuardApp) :
  type d = Some (js "projects") ->
  let ps := data_projects (data d) in
  let a' := handleChatMessage Date_parse now d a in
  (ps <> [] ->
   projectCount (map a') = Some (length ps)
   /\ (length (markers (map a')) <= length ps)%nat)
  /\ (ps = [] ->
      markers (map a') = []
      /\ projectCount (map a') = projectCount (map a)
      /\ totalBudget (map a') = totalBudget (map a)).
Proof.
  intros Ht. cbv zeta.
  remember (data_projects (data d)) as ps eqn:Eps.
  unfold handleChatMessage.
  rewrite (type_is_named d _ _ Ht). eval_names. cbv iota.
  cbn [currentProjects set_currentProjects set_map map]. rewrite <- Eps.
  destruct (updateProjects_markers ps (clearMarkers (map a)))
    as (Hm & _ & _).
  split.
  - intros Hne. destruct ps as [|first rest]; [congruence|].
    destruct (calculateBounds_two_corners (first :: rest))
      as (c0 & c1 & Hb).
    rewrite Hb.
    cbn [set_projectRenderer set_map map fitBounds projectCount markers].
    rewrite Hm. split; [reflexivity|apply markers_of_length].
  - intros ->. repeat split.
Qed.

Lemma project_count_is_the_size_of_the_set_witness :
  let a' :=
    handleChatMessage no_dates 0
      (projects_frame [project_at 14.5 121; no_project]) new_FloodGuardApp in
  projectCount (map a') = Some 2%nat /\ length (markers (map a')) = 1%nat.
Proof.
  cbv zeta. split; [|reflexivity].
  apply (project_count_is_the_size_of_the_set no_dates 0
           (projects_frame [project_at 14.5 121; no_project])
           new_FloodGuardApp eq_refl).
  discriminate.
Defined.

(** X16. A [news] frame replaces the news panel and touches nothing else:
    with articles the panel holds one card per article, in the order of the
    frame, whatever it showed before; with an empty array it shows the
    empty state; without [data] the frame is ignored. The pending requests,
    the projects, the map and the card stay as they are. *)
Theorem news_frame_replaces_the_panel (Date_parse : list N -> option Z)
    (now : Z) (d : Data) (a : FloodGuardApp) :
  type d = Some (js "news") ->
  let a' := handleChatMessage Date_parse now d a in
  (data d = NoData -> a' = a)
  /\ (forall arts, data d = ArticleList arts ->
        items (news a')
        = match arts with
          | [] => NewsEmpty
          | _ => NewsCards (List.map createNewsCard arts)
          end)
  /\ requests (news a') = requests (news a)
  /\ currentProjects a' = currentProjects a /\ map a' = map a
  /\ projectRenderer a' = projectRenderer a.
Proof.
  intros Ht. cbv zeta. unfold handleChatMessage.
  rewrite !(type_is_named d _ _ Ht). eval_names. cbv iota.
  split; [intros ->; reflexivity|].
  split; [intros arts ->; destruct arts; reflexivity|].
  destruct (data d) as [|ps|arts]; cbn [data_articles];
    [repeat split| |].
  - destruct (List.map (fun _ => no_article) ps); repeat split.
  - destruct arts; repeat split.
Qed.

Lemma news_frame_replaces_the_panel_witness :
  items (news (handleChatMessage no_dates 0
                 {| type := Some (js "news"); message := None;
                    content := None; done := false;
                    data := ArticleList []; bbox := None |}
                 new_FloodGuardApp))
  = NewsEmpty.
Proof.
  destruct (news_frame_replaces_the_panel no_dates 0
              {| type := Some (js "news"); message := None; content := None;
                 done := false; data := ArticleList []; bbox := None |}
              new_FloodGuardApp eq_refl) as (_ & H & _).
  exact (H [] eq_refl).
Defined.

(** X17. A click on a marker shows the card of that project, puts the news
    panel into its loading state and sends exactly one news request; the
    projects and the map stay as they are. The request has no [query] when
    the project has no description, no [contractor] when the contractor is
    missing, empty or [N/A], and no [location] when the project has neither
    municipality nor province. On a window of at most 1024 units the
    details panel opens; on a wider one it is left as it is. *)
Theorem marker_click_asks_for_news (Date_parse : list N -> option Z)
    (now : Z) (w : N) (p : Project) (a : FloodGuardApp) :
  let a' := handleProjectClick Date_parse now w p a in
  container (projectRenderer a') = CardShown (createProjectCard Date_parse p now)
  /\ items (news a') = NewsLoading
  /\ (exists q, requests (news a') = requests (news a) ++ [q]
        /\ (or_str (description p) (project_description p) = None ->
            q_query q = None)
        /\ (contractor p = None \/ contractor p = Some []
            \/ contractor p = Some (js "N/A") -> q_contractor q = None)
        /\ (or_str (municipality p) (Municipality p) = None ->
            or_str (province p) (Province p) = None ->
            q_location q = None))
  /\ currentProjects a' = currentProjects a /\ map a' = map a
  /\ detailsPanelActive a'
     = (if w <=? 1024 then true else detailsPanelActive a).
Proof.
  cbv zeta. unfold handleProjectClick.
  assert (Hq : exists q,
            requests (fetchForProject p (showLoadingNews (news a)))
            = requests (news a) ++ [q]
            /\ (or_str (description p) (project_description p) = None ->
                q_query q = None)
            /\ (contractor p = None \/ contractor p = Some []
                \/ contractor p = Some (js "N/A") -> q_contractor q = None)
            /\ (or_str (municipality p) (Municipality p) = None ->
                or_str (province p) (Province p) = None ->
                q_location q = None)).
  { unfold fetchForProject. cbn [requests showLoadingNews items].
    eexists. split; [reflexivity|]. cbn [q_query q_contractor q_location].
    split; [intros ->; reflexivity|].
    split; [intros [-> |[-> | ->]]; reflexivity|].
    intros -> ->. reflexivity. }
  destruct (w <=? 1024);
    cbn [container projectRenderer set_projectRenderer set_news news items
         currentProjects map detailsPanelActive render];
    repeat split; exact Hq.
Qed.

Lemma marker_click_asks_for_news_witness :
  q_contractor
    {| q_query := None; q_contractor := None; q_location := None |} = None
  /\ requests (news (handleProjectClick no_dates 0 800 (project_at 14.5 121)
                       new_FloodGuardApp))
     = [{| q_query := None; q_contractor := None; q_location := None |}].
Proof.
  split; [reflexivity|].
  destruct (marker_click_asks_for_news no_dates 0 800 (project_at 14.5 121)
              new_FloodGuardApp)
    as (_ & _ & (q & Hr & Hq & Hc & Hl) & _).
  rewrite Hr. cbn [requests news new_FloodGuardApp app].
  destruct q as [qq qc ql]. cbn [q_query q_contractor q_location] in *.
  rewrite (Hq eq_refl), (Hc (or_introl eq_refl)), (Hl eq_refl eq_refl).
  reflexivity.
Defined.

Lemma card_description_read (Date_parse : list N -> option Z)
    (p : Project) (now : Z) :
  card_description (createProjectCard Date_parse p now)
  = or_default (or_str (project_description p) (description p)) (js "N/A").
Proof.
  unfold createProjectCard.
  destruct (or_str (completion_date_actual p) (CompletionDateActual p))
    as [dd|]; [|reflexivity].
  destruct (str_truthy dd); [|reflexivity].
  destruct (date_before (Date_parse dd) now); reflexivity.
Qed.

(** X18. The card and the news request read the description under
    different keys first: for a project that has both [description] and
    [project_description], the card is titled with [project_description]
    while the news request asks for [description]. *)
Theorem card_and_news_disagree_on_the_description
    (Date_parse : list N -> option Z) (now : Z) (p : Project)
    (n : NewsManager) (d pd : list N) :
  description p = Some d -> project_description p = Some pd ->
  d <> [] -> pd <> [] ->
  card_description (createProjectCard Date_parse p now) = pd
  /\ exists q, requests (fetchForProject p n) = requests n ++ [q]
               /\ q_query q = Some d.
Proof.
  intros Hd Hpd Hnd Hnpd. split.
  - rewrite card_description_read, Hd, Hpd.
    destruct pd; [congruence|reflexivity].
  - unfold fetchForProject. cbn [requests showLoadingNews].
    eexists. split; [reflexivity|]. cbn [q_query].
    rewrite Hd, Hpd. destruct d; [congruence|reflexivity].
Qed.

Lemma card_and_news_disagree_on_the_description_witness :
  card_description (createProjectCard no_dates twice_described 0)
  = js "Construction of flood wall"
  /\ requests (fetchForProject twice_described
                 {| items := NewsOfPage; requests := [] |})
     = [{| q_query := Some (js "Flood wall"); q_contractor := None;
           q_location := Some (js "Lingayen Pangasinan") |}].
Proof.
  split; [|vm_compute; reflexivity].
  apply (card_and_news_disagree_on_the_description no_dates 0 twice_described
           {| items := NewsOfPage; requests := [] |}
           (js "Flood wall") (js "Construction of flood wall")
           eq_refl eq_refl); discriminate.
Defined.

(** ** The settings form *)

Lemma saveKeys_timers (k : APIKeyManager) :
  scheduled (saveKeys k)
  = if negb (str_truthy (trim (anthropicInput k)))
       && negb (str_truthy (trim (openaiInput k)))
    then scheduled k
    else scheduled k ++ [(CloseAndReload, 1500)].
Proof.
  unfold saveKeys.
  destruct (negb (str_truthy (trim (anthropicInput k)))
            && negb (str_truthy (trim (openaiInput k)))); [reflexivity|].
  destruct (str_truthy (trim (anthropicInput k))
            && negb (includes (trim (anthropicInput k)) bullet));
    destruct (str_truthy (trim (openaiInput k))
              && negb (includes (trim (openaiInput k)) bullet));
    reflexivity.
Qed.

(** X19. Saving and reading back. When both inputs hold something other
    than white space and no mask character, saving stores each input
    trimmed under its own name, so that both getters return the trimmed
    inputs and [hasKeys] is true; the form is closed and the page reloaded
    1500 milliseconds later. *)
Theorem saved_keys_are_read_back (k : APIKeyManager) :
  str_truthy (trim (anthropicInput k)) = true ->
  str_truthy (trim (openaiInput k)) = true ->
  includes (anthropicInput k) bullet = false ->
  includes (openaiInput k) bullet = false ->
  getAnthropicKey (saveKeys k) = Some (trim (anthropicInput k))
  /\ getOpenAIKey (saveKeys k) = Some (trim (openaiInput k))
  /\ hasKeys (saveKeys k) = true
  /\ scheduled (saveKeys k) = scheduled k ++ [(CloseAndReload, 1500)].
Proof.
  intros Ha Ho Hma Hmo.
  assert (H1 : getAnthropicKey (saveKeys k) = Some (trim (anthropicInput k))).
  { unfold getAnthropicKey.
    rewrite saveKeys_anthropic, includes_trim, Ha, Hma. reflexivity. }
  assert (H2 : getOpenAIKey (saveKeys k) = Some (trim (openaiInput k))).
  { unfold getOpenAIKey.
    rewrite saveKeys_openai, includes_trim, Ho, Hmo. reflexivity. }
  repeat split; try assumption.
  - unfold hasKeys. rewrite H1, H2. cbn [opt_truthy]. rewrite Ha, Ho.
    reflexivity.
  - rewrite saveKeys_timers, Ha. reflexivity.
Qed.

Lemma saved_keys_are_read_back_witness :
  let k := set_openaiInput (js " sk-0123456789 ")
             (set_anthropicInput (js "sk-ant-0123456789") (settings_form ∅)) in
  getOpenAIKey (saveKeys k) = Some (js "sk-0123456789")
  /\ hasKeys (saveKeys k) = true.
Proof.
  cbv zeta.
  destruct (saved_keys_are_read_back
              (set_openaiInput (js " sk-0123456789 ")
                 (set_anthropicInput (js "sk-ant-0123456789")
                    (settings_form ∅))))
    as (_ & Ho & Hh & _); [vm_compute; reflexivity..|].
  split; [exact Ho|exact Hh].
Defined.

(** X20. Saving an empty form is refused: when both inputs are empty or
    white space, nothing is stored, nothing is scheduled, the inputs stay,
    and the status line shows the error. *)
Theorem empty_form_is_not_saved (k : APIKeyManager) :
  str_truthy (trim (anthropicInput k)) = false ->
  str_truthy (trim (openaiInput k)) = false ->
  saveKeys k
  = showStatus (js "Please enter at least one API key") (js "error") k.
Proof.
  intros Ha Ho. unfold saveKeys. rewrite Ha, Ho. reflexivity.
Qed.

Lemma empty_form_is_not_saved_witness :
  let k := set_anthropicInput (js "   ") (settings_form both_keys) in
  sessionStorage (saveKeys k) = both_keys
  /\ scheduled (saveKeys k) = []
  /\ apiStatus (saveKeys k)
     = (js "Please enter at least one API key", js "api-status error").
Proof.
  cbv zeta.
  rewrite (empty_form_is_not_saved
             (set_anthropicInput (js "   ") (settings_form both_keys))
             eq_refl eq_refl).
  repeat split.
Defined.

(** X21. Saving the form as it was opened writes nothing and still reports
    success: with two stored keys of eight units or more, opening the form
    and saving it leaves the store unchanged, shows the success line and
    schedules the reload of the page. *)
Theorem untouched_form_reports_success (k : APIKeyManager) (a o : list N) :
  sessionStorage k !! ANTHROPIC_KEY = Some a ->
  sessionStorage k !! OPENAI_KEY = Some o ->
  (8 <= length a)%nat -> (8 <= length o)%nat ->
  let k' := saveKeys (openModal k) in
  sessionStorage k' !! ANTHROPIC_KEY = Some a
  /\ sessionStorage k' !! OPENAI_KEY = Some o
  /\ fst (apiStatus k')
     = 10003 :: js " API keys saved successfully! (Session only)"
  /\ scheduled k' = scheduled k ++ [(CloseAndReload, 1500)]
  /\ modalActive k' = true.
Proof.
  intros Ha Ho Hla Hlo. cbv zeta.
  assert (Hta : str_truthy a = true) by (destruct a; [simpl in Hla; lia|reflexivity]).
  assert (Hto : str_truthy o = true) by (destruct o; [simpl in Hlo; lia|reflexivity]).
  destruct (openModal_inputs k) as [Hia Hio].
  pose proof (Hia a Ha Hta) as Hina. pose proof (Hio o Ho Hto) as Hino.
  pose proof (maskKey_has_bullet a Hla) as Hba.
  pose proof (maskKey_has_bullet o Hlo) as Hbo.
  assert (Hna : str_truthy (trim (anthropicInput (openModal k))) = true).
  { apply (includes_nonempty _ bullet).
    rewrite includes_trim, Hina. exact Hba. }
  split.
  { rewrite saveKeys_anthropic, includes_trim, Hina, Hba.
    rewrite andb_false_r, openModal_store. exact Ha. }
  split.
  { rewrite saveKeys_openai, includes_trim, Hino, Hbo.
    rewrite andb_false_r, openModal_store. exact Ho. }
  split; [|split].
  - unfold saveKeys. rewrite Hna. cbn [negb andb].
    rewrite !includes_trim, Hina, Hino, Hba, Hbo, !andb_false_r.
    reflexivity.
  - rewrite saveKeys_timers, Hna. cbn [negb andb]. f_equal.
    unfold openModal, getAnthropicKey, getOpenAIKey.
    rewrite Ha, Ho, Hta, Hto. reflexivity.
  - unfold saveKeys. rewrite Hna. cbn [negb andb].
    rewrite !includes_trim, Hina, Hino, Hba, Hbo, !andb_false_r.
    cbn [modalActive keyTimeout set_scheduled showStatus].
    unfold openModal, getAnthropicKey, getOpenAIKey.
    rewrite Ha, Ho, Hta, Hto. reflexivity.
Qed.

Lemma untouched_form_reports_success_witness :
  sessionStorage (saveKeys (openModal (settings_form both_keys)))
    !! ANTHROPIC_KEY = Some (js "sk-ant-0123456789")
  /\ scheduled (saveKeys (openModal (settings_form both_keys)))
     = [(CloseAndReload, 1500)].
Proof.
  destruct (untouched_form_reports_success (settings_form both_keys)
              (js "sk-ant-0123456789") (js "sk-0123456789"))
    as (Ha & _ & _ & Hs & _);
    [vm_compute; reflexivity|vm_compute; reflexivity
    |vm_compute; lia|vm_compute; lia|].
  split; [exact Ha|exact Hs].
Defined.

Lemma firstn_exact (a b : list N) (n : nat) :
  length a = n -> firstn n (a ++ b) = a.
Proof.
  intros <-.
  induction a as [|x a IH]; cbn; [destruct b|rewrite IH]; reflexivity.
Qed.

Lemma skipn_exact (a b : list N) (n : nat) :
  length a = n -> skipn n (a ++ b) = b.
Proof. intros <-. induction a as [|x a IH]; cbn; [reflexivity|exact IH]. Qed.

(** X22. What the mask shows. A key of eight units or more is shown as 31
    units: its first seven, twenty mask characters, its last four; a key of
    fewer than eight units is shown as it is, unmasked. *)
Theorem mask_shows_seven_and_four (key : list N) :
  ((8 <= length key)%nat ->
   length (maskKey key) = 31%nat
   /\ firstn 7 (maskKey key) = firstn 7 key
   /\ firstn 20 (skipn 7 (maskKey key)) = repeat bullet 20
   /\ skipn 27 (maskKey key) = skipn (length key - 4) key)
  /\ ((length key < 8)%nat -> maskKey key = key).
Proof.
  split.
  - intros H. unfold maskKey.
    destruct key as [|x key]; [simpl in H; lia|].
    cbn [str_truthy negb orb].
    destruct (Nat.ltb_spec (length (x :: key)) 8) as [Hlt|_]; [lia|].
    unfold substring, substring_from.
    change (skipn 0 (x :: key)) with (x :: key).
    change (7 - 0)%nat with 7%nat.
    set (k := x :: key) in *.
    set (a := firstn 7 k). set (mid := repeat bullet 20).
    set (z := skipn (length k - 4) k).
    assert (H7 : length a = 7%nat)
      by (subst a; rewrite length_firstn; lia).
    assert (H20 : length mid = 20%nat) by apply repeat_length.
    assert (H4 : length z = 4%nat)
      by (subst z; rewrite length_skipn; lia).
    split; [rewrite !length_app, H7, H20, H4; reflexivity|].
    split; [apply firstn_exact, H7|].
    split.
    + rewrite (skipn_exact a _ 7 H7). apply firstn_exact, H20.
    + rewrite app_assoc. apply skipn_exact.
      rewrite length_app, H7, H20. reflexivity.
  - intros H. unfold maskKey.
    destruct (Nat.ltb_spec (length key) 8) as [_|Hge]; [|lia].
    rewrite orb_true_r. reflexivity.
Qed.

Lemma mask_shows_seven_and_four_witness :
  firstn 7 (maskKey (js "sk-ant-0123456789")) = js "sk-ant-"
  /\ skipn 27 (maskKey (js "sk-ant-0123456789")) = js "6789"
  /\ maskKey (js "sk-1234") = js "sk-1234".
Proof.
  destruct (mask_shows_seven_and_four (js "sk-ant-0123456789")) as [H _].
  destruct (H ltac:(vm_compute; lia)) as (_ & H7 & _ & H4).
  destruct (mask_shows_seven_and_four (js "sk-1234")) as [_ Hs].
  split; [rewrite H7; reflexivity|].
  split; [rewrite H4; reflexivity|].
  apply Hs. vm_compute. lia.
Defined.

(** X23. Clearing the keys. Once the user confirms, both entries are gone
    from the store, [hasKeys] is false, the inputs are empty and the page
    reloads after 1000 milliseconds; from then on a send attempt in the
    chat transmits nothing. When the user declines, nothing changes. *)
Theorem cleared_keys_stop_the_chat (k : APIKeyManager) (send_fails : bool)
    (c : ChatManager) :
  clearKeys false k = k
  /\ getAnthropicKey (clearKeys true k) = None
  /\ getOpenAIKey (clearKeys true k) = None
  /\ hasKeys (clearKeys true k) = false
  /\ anthropicInput (clearKeys true k) = []
  /\ openaiInput (clearKeys true k) = []
  /\ scheduled (clearKeys true k) = scheduled k ++ [(ReloadPage, 1000)]
  /\ sent (snd (sendMessage (sessionStorage (clearKeys true k)) send_fails c))
     = sent c.
Proof.
  assert (Ha : sessionStorage (clearKeys true k) !! ANTHROPIC_KEY = None).
  { cbn. rewrite lookup_delete_ne by exact (not_eq_sym key_names_differ).
    apply lookup_delete_eq. }
  assert (Ho : sessionStorage (clearKeys true k) !! OPENAI_KEY = None).
  { cbn. apply lookup_delete_eq. }
  split; [reflexivity|].
  split; [exact Ha|]. split; [exact Ho|].
  split; [unfold hasKeys, getAnthropicKey; rewrite Ha; reflexivity|].
  split; [reflexivity|]. split; [reflexivity|]. split; [reflexivity|].
  unfold sendMessage. rewrite Ha.
  destruct (negb (str_truthy (trim (inputValue c))) || negb (isConnected c));
    [reflexivity|].
  rewrite addMessage_some. reflexivity.
Qed.

Lemma openModal_active (k : APIKeyManager) : modalActive (openModal k) = true.
Proof.
  unfold openModal, getAnthropicKey, getOpenAIKey.
  destruct (sessionStorage k !! ANTHROPIC_KEY) as [a|];
    destruct (sessionStorage k !! OPENAI_KEY) as [o|];
    try destruct (str_truthy a); try destruct (str_truthy o); reflexivity.
Qed.

(** X24. A page that loads without both keys asks for them: the
    constructor schedules, after 1000 milliseconds, the opening of the form
    with a warning, and when that timer fires the form is open, the
    warning is shown and the store is untouched. A page that loads with
    both keys schedules nothing and leaves the form closed. *)
Theorem missing_keys_open_the_form (store : gmap (list N) (list N)) :
  (keys_configured store = false ->
   scheduled (new_APIKeyManager store) = [(OpenWithWarning, 1000)]
   /\ modalActive (key_step (new_APIKeyManager store) (KeyTimer 0)) = true
   /\ fst (apiStatus (key_step (new_APIKeyManager store) (KeyTimer 0)))
      = js "Please enter your API keys to use FloodGuard PH"
   /\ sessionStorage (key_step (new_APIKeyManager store) (KeyTimer 0))
      = store)
  /\ (keys_configured store = true ->
      new_APIKeyManager store = settings_form store).
Proof.
  assert (Hnew : new_APIKeyManager store
                 = if keys_configured store then settings_form store
                   else keyTimeout OpenWithWarning 1000 (settings_form store)).
  { unfold new_APIKeyManager, checkKeys, keys_configured, getAnthropicKey,
      getOpenAIKey, settings_form. cbn [sessionStorage].
    rewrite <- negb_andb.
    destruct (opt_truthy (store !! ANTHROPIC_KEY)
              && opt_truthy (store !! OPENAI_KEY)); reflexivity. }
  rewrite Hnew. split; intros H; rewrite H; [|reflexivity].
  split; [reflexivity|].
  unfold key_step.
  change (scheduled (keyTimeout OpenWithWarning 1000 (settings_form store))
          !! 0%nat) with (Some (OpenWithWarning, 1000)).
  cbv iota. cbn [showStatus modalActive apiStatus sessionStorage fst].
  rewrite openModal_active, openModal_store. repeat split.
Qed.

Lemma missing_keys_open_the_form_witness :
  scheduled (new_APIKeyManager ∅) = [(OpenWithWarning, 1000)]
  /\ new_APIKeyManager both_keys = settings_form both_keys.
Proof.
  destruct (missing_keys_open_the_form ∅) as [H _].
  destruct (H eq_refl) as (Hs & _).
  destruct (missing_keys_open_the_form both_keys) as [_ H2].
  split; [exact Hs|]. apply H2. vm_compute. reflexivity.
Defined.

(** ** Reconnecting *)

Lemma step_close {A} (onMessage : option (Data -> A -> A))
    (c : ChatManager) (a : A) :
  step onMessage (c, a) SocketClose
  = (set_timers (timers c ++ [(Reconnect, 3000)])
       (set_sendDisabled true (set_isConnected false c)), a).
Proof. reflexivity. Qed.

Lemma step_open {A} (onMessage : option (Data -> A -> A))
    (c : ChatManager) (a : A) :
  step onMessage (c, a) SocketOpen
  = (set_sendDisabled false (set_isConnected true c), a).
Proof. reflexivity. Qed.

Lemma step_timer {A} (onMessage : option (Data -> A -> A))
    (c : ChatManager) (a : A) (i : nat) (delay : N) :
  timers c !! i = Some (Reconnect, delay) ->
  step onMessage (c, a) (TimerFires i false)
  = (set_ws (Some (sockets c))
       (set_sockets (S (sockets c)) (set_timers (delete i (timers c)) c)), a).
Proof.
  intros H. unfold step. cbn [dispatch fst]. rewrite H. reflexivity.
Qed.

(** X25. A dropped connection comes back by itself. From a chat with no
    pending timer, a close event followed by the firing of its timer and the
    opening of the new socket leaves the chat connected to a socket made
    for the occasion, with the send button enabled, no timer pending, the
    same session identifier, the same log and nothing sent meanwhile: the
    outage itself puts no message into the log. *)
Theorem closed_connection_is_reopened {A}
    (onMessage : option (Data -> A -> A)) (c : ChatManager) (a : A) :
  timers c = [] ->
  let s := run onMessage [SocketClose; TimerFires 0 false; SocketOpen] (c, a) in
  isConnected (fst s) = true
  /\ ws (fst s) = Some (sockets c)
  /\ sockets (fst s) = S (sockets c)
  /\ sendDisabled (fst s) = false
  /\ timers (fst s) = []
  /\ sessionId (fst s) = sessionId c
  /\ messagesContainer (fst s) = messagesContainer c
  /\ sent (fst s) = sent c
  /\ snd s = a.
Proof.
  intros Ht. cbv zeta. unfold run. cbn [fold_left].
  rewrite step_close.
  rewrite (step_timer onMessage _ a 0 3000)
    by (chat_fields; rewrite Ht; reflexivity).
  rewrite step_open. chat_fields. rewrite Ht. repeat split.
Qed.

Lemma closed_connection_is_reopened_witness :
  ws (fst (run (Some (handleChatMessage no_dates 0))
             [SocketClose; TimerFires 0 false; SocketOpen]
             (idle_chat, new_FloodGuardApp)))
  = Some 1%nat.
Proof.
  apply (closed_connection_is_reopened (Some (handleChatMessage no_dates 0))
           idle_chat new_FloodGuardApp eq_refl).
Defined.

(** X26. A reconnect that cannot even make its socket is not retried: when
    the timer fires and the socket constructor throws, the timer is used
    up, no other is scheduled, the socket of the chat stays the old one and
    the log gets the row that says the connection failed. *)
Theorem failed_reconnect_is_not_retried {A}
    (onMessage : option (Data -> A -> A)) (c : ChatManager) (a : A)
    (i : nat) (delay : N) :
  timers c !! i = Some (Reconnect, delay) ->
  let s := step onMessage (c, a) (TimerFires i true) in
  timers (fst s) = delete i (timers c)
  /\ ws (fst s) = ws c /\ sockets (fst s) = sockets c
  /\ isConnected (fst s) = isConnected c
  /\ messagesContainer (fst s)
     = remove_first is_welcome (messagesContainer c)
       ++ [MessageDiv assistant
             (parseMarkdown
                (warning_sign ++ js " " ++ js "Failed to connect to server."))].
Proof.
  intros Hi. cbv zeta. unfold step. cbn [dispatch fst]. rewrite Hi.
  unfold in_chat, connect, throw, showError. repeat run_step. chat_fields.
  repeat split.
Qed.

Lemma failed_reconnect_is_not_retried_witness :
  let c := set_timers [(Reconnect, 3000)] (set_isConnected false idle_chat) in
  timers (fst (step (Some (handleChatMessage no_dates 0))
                 (c, new_FloodGuardApp) (TimerFires 0 true))) = [].
Proof.
  cbv zeta.
  apply (failed_reconnect_is_not_retried (Some (handleChatMessage no_dates 0))
           (set_timers [(Reconnect, 3000)] (set_isConnected false idle_chat))
           new_FloodGuardApp 0%nat 3000 eq_refl).
Defined.

(** ** Answers to news requests *)

(** X27. An answer to a news request overwrites the panel whatever it
    shows and whichever request it answers: the panel after the answer
    depends on the answer alone, it is the error state for a failed
    request, the empty state for no article and one card per article
    otherwise, never the loading state; the list of requests is left as it
    is. *)
Theorem news_answer_overwrites_the_panel (arts : option (list Article))
    (n n' : NewsManager) :
  items (newsResponse arts n) = items (newsResponse arts n')
  /\ items (newsResponse arts n) <> NewsLoading
  /\ items (newsResponse arts n)
     = match arts with
       | None => NewsError
       | Some [] => NewsEmpty
       | Some l => NewsCards (List.map createNewsCard l)
       end
  /\ requests (newsResponse arts n) = requests n.
Proof.
  destruct arts as [[|x l]|]; repeat split; discriminate.
Qed.
